(** * The chat composer of the side panel (ChatInput.tsx)

    A shallow embedding of the message-composition and file-attachment
    handlers of [pages/side-panel/src/components/ChatInput.tsx]:
    [handleSubmit], [handleKeyDown], [handleFileChange] and
    [handleRemoveFile], together with the few JavaScript string and array
    built-ins they call.  The other handlers of the component, the profile
    form of the options page ([ProfileSettings.tsx]) and the tabs of the
    options page follow, each with its own state and events. *)

From Stdlib Require Import Ascii String.
From Stdlib Require Import List NArith ZArith Bool Lia.
Import ListNotations.

Set Implicit Arguments.

(** ** JavaScript strings and the built-ins the component uses *)

Module JS.

(** A JavaScript string is a sequence of UTF-16 code units. *)
Definition code_unit := N.
Definition jstring := list code_unit.

(** An ASCII literal of the source, as code units. *)
Definition lit (s : string) : jstring :=
  map N_of_ascii (list_ascii_of_string s).

Definition nl : jstring := [10%N].      (* the line feed escape *)
Definition quote : jstring := [34%N].   (* the double quote *)
Definition dot : code_unit := 46%N.     (* the full stop *)

Fixpoint eqb (s t : jstring) : bool :=
  match s, t with
  | [], [] => true
  | c :: s', d :: t' => N.eqb c d && eqb s' t'
  | _, _ => false
  end.

(** [ToBoolean] of a string: the empty string is the only falsy one. *)
Definition truthy (s : jstring) : bool :=
  match s with [] => false | _ :: _ => true end.

(** ECMAScript WhiteSpace and LineTerminator code points, all of them in
    the Basic Multilingual Plane and so one code unit each. *)
Definition is_white_space (c : code_unit) : bool :=
  (  (c =? 9) || (c =? 10) || (c =? 11) || (c =? 12) || (c =? 13)
  || (c =? 32) || (c =? 160) || (c =? 5760)
  || ((8192 <=? c) && (c <=? 8202))
  || (c =? 8232) || (c =? 8233) || (c =? 8239) || (c =? 8287)
  || (c =? 12288) || (c =? 65279))%N.

Fixpoint trimStart (s : jstring) : jstring :=
  match s with
  | [] => []
  | c :: s' => if is_white_space c then trimStart s' else s
  end.

Definition trimEnd (s : jstring) : jstring := rev (trimStart (rev s)).

(** [String.prototype.trim]. *)
Definition trim (s : jstring) : jstring := trimEnd (trimStart s).

(** [String.prototype.toLowerCase], restricted to what decides membership
    in an ASCII word list: the ASCII capitals, and the two code points
    outside ASCII whose lower case contains an ASCII letter (KELVIN SIGN,
    and LATIN CAPITAL LETTER I WITH DOT ABOVE, which becomes i followed by
    COMBINING DOT ABOVE).  Every other code unit is left as it is; the
    remaining Unicode case pairs, none of which yields an ASCII-only
    result, are not tabulated.  For a name with such a capital the text
    of a console warning therefore shows the capital where the browser
    shows its lower case; which files are attached, and the keys of
    [labelToKey], are not affected. *)
Definition lower_unit (c : code_unit) : jstring :=
  (if (65 <=? c) && (c <=? 90) then [c + 32]
   else if c =? 8490 then [107]
   else if c =? 304 then [105; 775]
   else [c])%N.

Definition toLowerCase (s : jstring) : jstring := flat_map lower_unit s.

(** [String.prototype.split] with a separator of one code unit. *)
Fixpoint split (sep : code_unit) (s : jstring) : list jstring :=
  match s with
  | [] => [[]]
  | c :: s' =>
      if N.eqb c sep then [] :: split sep s'
      else match split sep s' with
           | [] => [[c]]
           | piece :: pieces => (c :: piece) :: pieces
           end
  end.

(** [Array.prototype.pop], its return value: the last element, or
    [undefined] (here [None]) on an empty array. *)
Fixpoint pop (A : Type) (l : list A) : option A :=
  match l with
  | [] => None
  | [x] => Some x
  | _ :: l' => pop l'
  end.

(** [Array.prototype.join]. *)
Fixpoint join (sep : jstring) (l : list jstring) : jstring :=
  match l with
  | [] => []
  | [s] => s
  | s :: l' => s ++ sep ++ join sep l'
  end.

(** [Array.prototype.includes] on an array of strings. *)
Definition includes (l : list jstring) (s : jstring) : bool :=
  existsb (eqb s) l.

(** [Array.prototype.filter] with the two-argument callback
    [(element, index) => ...]; [i] is the index of the head. *)
Fixpoint filter_from (A : Type) (p : A -> nat -> bool) (i : nat) (l : list A)
  : list A :=
  match l with
  | [] => []
  | x :: l' => if p x i then x :: filter_from p (S i) l' else filter_from p (S i) l'
  end.

Definition filter_indexed (A : Type) (p : A -> nat -> bool) (l : list A) : list A :=
  filter_from p 0 l.

(** [t] occurs in [s] as a contiguous run of code units. *)
Definition occurs_in (t s : jstring) : Prop :=
  exists before after, s = before ++ t ++ after.

End JS.

(** ** The component state and the effects of its handlers *)

Module AttachedFile.

(** [interface AttachedFile]. *)
Record t := Build { name : JS.jstring; content : JS.jstring; type : JS.jstring }.

End AttachedFile.

Module File.

(** The part of a browser [File] handle the component reads.  [text] is the
    outcome of awaiting [file.text()]: the content, or [None] when the
    promise rejects. *)
Record t := Build {
  name : JS.jstring;
  size : N;
  type : JS.jstring;
  text : option JS.jstring
}.

End File.

Module ChatInput.

Import JS.

(** The two [useState] cells, and the value of the hidden file input behind
    [fileInputRef] ([None] while the ref is not attached). *)
Record State := mkState {
  text : jstring;
  attachedFiles : list AttachedFile.t;
  fileInputValue : option jstring
}.

(** The props the handlers and the rendered controls depend on. *)
Record Props := mkProps {
  disabled : bool;
  showStopButton : bool;
  historicalSessionId : option jstring
}.

(** [React.KeyboardEvent], the fields [handleKeyDown] reads. *)
Record KeyboardEvent := mkKey {
  key : jstring;
  shiftKey : bool;
  isComposing : bool
}.

(** What a handler does to the world outside the component state. *)
Inductive Effect :=
| PreventDefault
| OnSendMessage (messageContent displayContent : jstring)
| ConsoleWarn (message : jstring)
| ConsoleError (message : jstring).

(** Handlers run in a state monad over [State] that also records the
    effects, in the order they happen. *)
Definition M (A : Type) : Type := State -> A * State * list Effect.

Definition ret (A : Type) (a : A) : M A := fun s => (a, s, []).

Definition bind (A B : Type) (m : M A) (k : A -> M B) : M B :=
  fun s =>
    let '(a, s1, e1) := m s in
    let '(b, s2, e2) := k a s1 in
    (b, s2, e1 ++ e2).

Notation "x <- m ;; k" := (bind m (fun x => k))
  (at level 61, m at next level, right associativity).
Notation "m ;; k" := (bind m (fun _ => k))
  (at level 61, right associativity).

Definition get : M State := fun s => (s, s, []).
Definition emit (e : Effect) : M unit := fun s => (tt, s, [e]).

Definition setText (v : jstring) : M unit :=
  fun s => (tt, mkState v (attachedFiles s) (fileInputValue s), []).

(** [setAttachedFiles] with an updater function. *)
Definition setAttachedFiles (f : list AttachedFile.t -> list AttachedFile.t) : M unit :=
  fun s => (tt, mkState (text s) (f (attachedFiles s)) (fileInputValue s), []).

Definition state_of (A : Type) (r : A * State * list Effect) : State := snd (fst r).
Definition effects_of (A : Type) (r : A * State * list Effect) : list Effect := snd r.

(** The attachment glyph of the template literal on the display line, with
    the code units the source file stores for it: U+00F0 U+0178 U+201C
    U+017D, which is U+1F4CE PAPERCLIP in UTF-8 read as Windows-1252. *)
Definition glyph : jstring := [240; 376; 8220; 381]%N.

(** The callback of [attachedFiles.map] that tags one file's content. *)
Definition fileBlock (file : AttachedFile.t) : jstring :=
  nl ++ nl ++ lit "<nano_file_content type=" ++ quote ++ lit "file" ++ quote
     ++ lit " name=" ++ quote ++ AttachedFile.name file ++ quote ++ lit ">"
     ++ nl ++ AttachedFile.content file ++ nl ++ lit "</nano_file_content>".

(** The callback of [attachedFiles.map] that builds one display line. *)
Definition fileLine (file : AttachedFile.t) : jstring :=
  glyph ++ lit " " ++ AttachedFile.name file.

Definition isSendButtonDisabled (p : Props) (s : State) : bool :=
  disabled p
  || (eqb (trim (text s)) (lit "") && (length (attachedFiles s) =? 0)%nat).

(** The first argument [handleSubmit] passes to [onSendMessage]. *)
Definition messageContent (trimmedText : jstring) (files : list AttachedFile.t) : jstring :=
  if (0 <? length files)%nat then
    let fileContents := join nl (map fileBlock files) in
    if truthy trimmedText
    then trimmedText ++ nl ++ nl ++ lit "<nano_attached_files>" ++ fileContents
                     ++ lit "</nano_attached_files>"
    else lit "<nano_attached_files>" ++ fileContents ++ lit "</nano_attached_files>"
  else trimmedText.

(** The second argument [handleSubmit] passes to [onSendMessage]. *)
Definition displayContent (trimmedText : jstring) (files : list AttachedFile.t) : jstring :=
  if (0 <? length files)%nat then
    let fileList := join nl (map fileLine files) in
    if truthy trimmedText then trimmedText ++ nl ++ nl ++ fileList else fileList
  else trimmedText.

Definition handleSubmit : M unit :=
  emit PreventDefault ;;
  s <- get ;;
  let trimmedText := trim (text s) in
  if truthy trimmedText || (0 <? length (attachedFiles s))%nat then
    emit (OnSendMessage (messageContent trimmedText (attachedFiles s))
                        (displayContent trimmedText (attachedFiles s))) ;;
    setText [] ;;
    setAttachedFiles (fun _ => [])
  else ret tt.

Definition handleKeyDown (e : KeyboardEvent) : M unit :=
  if eqb (key e) (lit "Enter") && negb (shiftKey e) && negb (isComposing e) then
    emit PreventDefault ;;
    handleSubmit
  else ret tt.

Definition allowedTypes : list jstring :=
  [lit ".txt"; lit ".md"; lit ".markdown"; lit ".json"; lit ".csv";
   lit ".log"; lit ".xml"; lit ".yaml"; lit ".yml"].

(** ['.' + file.name.split('.').pop()?.toLowerCase()]; were [pop] to give
    [undefined], the optional chain would too and the sum would read
    [.undefined]. *)
Definition fileExt (fileName : jstring) : jstring :=
  match pop (split dot fileName) with
  | Some last => dot :: toLowerCase last
  | None => dot :: lit "undefined"
  end.

(** The body of the [for] loop of [handleFileChange], over the files not yet
    visited; [newFiles] is the array pushed to so far. *)
Fixpoint readFiles (files : list File.t) (newFiles : list AttachedFile.t)
  : M (list AttachedFile.t) :=
  match files with
  | [] => ret newFiles
  | file :: rest =>
      if negb (includes allowedTypes (fileExt (File.name file))) then
        emit (ConsoleWarn (lit "File type " ++ fileExt (File.name file)
                ++ lit " not supported. Only text-based files are allowed.")) ;;
        readFiles rest newFiles
      else if (1024 * 1024 <? File.size file)%N then
        emit (ConsoleWarn (lit "File " ++ File.name file
                ++ lit " is too large. Maximum size is 1MB.")) ;;
        readFiles rest newFiles
      else
        match File.text file with
        | Some content =>
            readFiles rest
              (newFiles ++ [AttachedFile.Build (File.name file) content
                              (if truthy (File.type file) then File.type file
                               else lit "text/plain")])
        | None =>
            emit (ConsoleError (lit "Error reading file " ++ File.name file ++ lit ":")) ;;
            readFiles rest newFiles
        end
  end.

Definition resetFileInput : M unit :=
  fun s =>
    match fileInputValue s with
    | Some _ => (tt, mkState (text s) (attachedFiles s) (Some []), [])
    | None => (tt, s, [])
    end.

(** [files] is [e.target.files], [None] when it is [null]. *)
Definition handleFileChange (files : option (list File.t)) : M unit :=
  match files with
  | None => ret tt
  | Some [] => ret tt
  | Some selection =>
      newFiles <- readFiles selection [] ;;
      (if (0 <? length newFiles)%nat
       then setAttachedFiles (fun prev => prev ++ newFiles)
       else ret tt) ;;
      resetFileInput
  end.

(** [index] is a JavaScript number; the callback compares it with the
    array positions, which are naturals, so an integer that is negative or
    past the end equals none of them. *)
Definition handleRemoveFile (index : Z) : M unit :=
  setAttachedFiles
    (filter_indexed (fun _ i => negb (Z.eqb (Z.of_nat i) index))).

End ChatInput.

(** ** The format the specification text gives for the payload

    These definitions follow the words of the specification (section 4.1,
    step 3, and the scenario of section 8), not the source; they are what
    [ChatInput.messageContent] is compared with. *)

Module Claimed.

Import JS.

Definition fileBlock (file : AttachedFile.t) : jstring :=
  nl ++ nl ++ lit "<file-content name=" ++ quote ++ AttachedFile.name file ++ quote
     ++ lit ">" ++ nl ++ AttachedFile.content file ++ nl ++ lit "</file-content>".

Definition envelope (files : list AttachedFile.t) : jstring :=
  lit "<attached-files>" ++ concat (map fileBlock files) ++ lit "</attached-files>".

Definition payload (T : jstring) (files : list AttachedFile.t) : jstring :=
  if truthy T then T ++ nl ++ nl ++ envelope files else envelope files.

End Claimed.

(** ** Predicates used to state the properties *)

Module Spec.

Import JS ChatInput.

(** The guard of [handleSubmit], as a proposition. *)
Definition can_submit (s : State) : Prop :=
  trim (text s) <> [] \/ attachedFiles s <> [].

(** The condition under which [handleKeyDown] acts. *)
Definition plain_enter (e : KeyboardEvent) : Prop :=
  key e = lit "Enter" /\ shiftKey e = false /\ isComposing e = false.

(** The extension words of the allowed set, without the leading dot. *)
Definition allowedWords : list jstring :=
  [lit "txt"; lit "md"; lit "markdown"; lit "json"; lit "csv";
   lit "log"; lit "xml"; lit "yaml"; lit "yml"].

(** The lower-cased extension of a file name: what follows its last dot,
    or the whole name when it has none. *)
Definition extension (fileName : jstring) : jstring :=
  toLowerCase (last (split dot fileName) []).

(** A selected file passes both checks and its content can be read. *)
Definition accepted (file : File.t) : Prop :=
  In (extension (File.name file)) allowedWords
  /\ (File.size file <= 1024 * 1024)%N
  /\ File.text file <> None.

(** What one selected file adds to the attachment sequence. *)
Definition contribution (file : File.t) : list AttachedFile.t :=
  if includes allowedTypes (fileExt (File.name file))
     && (File.size file <=? 1024 * 1024)%N
  then match File.text file with
       | Some content =>
           [AttachedFile.Build (File.name file) content
              (if truthy (File.type file) then File.type file else lit "text/plain")]
       | None => []
       end
  else [].

(** What one selected file adds to the console. *)
Definition logged (file : File.t) : list Effect :=
  if negb (includes allowedTypes (fileExt (File.name file))) then
    [ConsoleWarn (lit "File type " ++ fileExt (File.name file)
        ++ lit " not supported. Only text-based files are allowed.")]
  else if (1024 * 1024 <? File.size file)%N then
    [ConsoleWarn (lit "File " ++ File.name file
        ++ lit " is too large. Maximum size is 1MB.")]
  else match File.text file with
       | Some _ => []
       | None => [ConsoleError (lit "Error reading file " ++ File.name file ++ lit ":")]
       end.

Definition is_log (e : Effect) : Prop :=
  match e with
  | ConsoleWarn _ | ConsoleError _ => True
  | _ => False
  end.

(** The opening and closing tags around the content in a block. *)
Definition blockOpen (fileName : jstring) : jstring :=
  nl ++ nl ++ lit "<nano_file_content type=" ++ quote ++ lit "file" ++ quote
     ++ lit " name=" ++ quote ++ fileName ++ quote ++ lit ">" ++ nl.

Definition blockClose : jstring := nl ++ lit "</nano_file_content>".

(** What precedes the envelope, or the file list: the trimmed text and two
    newlines, or nothing when the trimmed text is empty. *)
Definition lead (T : jstring) : jstring :=
  if truthy T then T ++ nl ++ nl else [].

(** The scenario of the specification: the text Hello with one attachment
    named a.txt whose content is hi, and the payload the specification
    gives for it. *)
Definition a_txt : AttachedFile.t :=
  AttachedFile.Build (lit "a.txt") (lit "hi") (lit "text/plain").

Definition hello : State := mkState (lit "Hello") [a_txt] None.

Definition scenario_payload : jstring :=
  lit "Hello" ++ nl ++ nl ++ lit "<attached-files>" ++ nl ++ nl
    ++ lit "<file-content name=" ++ quote ++ lit "a.txt" ++ quote ++ lit ">"
    ++ nl ++ lit "hi" ++ nl ++ lit "</file-content></attached-files>".

(** The same attachment under a text that happens to equal its content. *)
Definition hi : State := mkState (lit "hi") [a_txt] None.

End Spec.

(** ** The rest of the composer: text input, replay and the action button *)

Module Composer.

Import JS ChatInput.

(** [handleTextChange].  [scrollHeight] is the scroll height of the text
    area behind [textareaRef] once its height is reset to auto, [None]
    while the ref is not attached; the result is the height in pixels the
    handler gives the text area. *)
Definition handleTextChange (newText : jstring) (scrollHeight : option N)
  : M (option N) :=
  setText newText ;;
  ret (match scrollHeight with
       | Some h => Some (N.min h 100)
       | None => None
       end).

(** [handleReplay]: the argument of the call of [onReplay], [None] when the
    handler makes none.  [onReplay] tells whether the optional prop is
    supplied. *)
Definition handleReplay (p : Props) (onReplay : bool) : option jstring :=
  match historicalSessionId p with
  | Some sessionId => if truthy sessionId && onReplay then Some sessionId else None
  | None => None
  end.

(** The button the form renders at its lower right, with the value of its
    [disabled] attribute where it has one. *)
Inductive ActionButton :=
| StopButton
| ReplayButton (isDisabled : bool)
| SendButton (isDisabled : bool).

Definition actionButton (p : Props) (s : State) : ActionButton :=
  if showStopButton p then StopButton
  else match historicalSessionId p with
       | Some sessionId =>
           if truthy sessionId then ReplayButton (negb (truthy sessionId))
           else SendButton (isSendButtonDisabled p s)
       | None => SendButton (isSendButtonDisabled p s)
       end.

(** The events that reach the handlers of the component. *)
Inductive Event :=
| TextChange (value : jstring) (scrollHeight : option N)
| SetContent (value : jstring)
| FormSubmit
| KeyDown (e : KeyboardEvent)
| FileChange (files : option (list File.t))
| RemoveFile (index : Z).

(** [SetContent] is a call of the [setText] the component hands out through
    the [setContent] prop. *)
Definition handle (ev : Event) : M unit :=
  match ev with
  | TextChange value scrollHeight =>
      _ <- handleTextChange value scrollHeight ;; ret tt
  | SetContent value => setText value
  | FormSubmit => handleSubmit
  | KeyDown e => handleKeyDown e
  | FileChange files => handleFileChange files
  | RemoveFile index => handleRemoveFile index
  end.

(** One event after the other.  A [FileChange] stands where the reads of
    its selection have settled and the handler appends: the handler waits
    for each read, and touches the state (through the updater of
    [setAttachedFiles]) only then; its console messages are recorded at
    that place too. *)
Fixpoint run (events : list Event) : M unit :=
  match events with
  | [] => ret tt
  | ev :: rest => handle ev ;; run rest
  end.

(** The state of a freshly mounted component. *)
Definition initial (fileInput : option jstring) : State :=
  mkState [] [] fileInput.

(** The first, and the last, code unit of [s] is white space. *)
Definition starts_with_space (s : jstring) : bool :=
  match s with
  | [] => false
  | c :: _ => is_white_space c
  end.

Definition ends_with_space (s : jstring) : bool := starts_with_space (rev s).

(** An attachment as [handleFileChange] makes them: the name carries an
    allowed extension and the type is not empty. *)
Definition well_attached (file : AttachedFile.t) : Prop :=
  In (Spec.extension (AttachedFile.name file)) Spec.allowedWords
  /\ AttachedFile.type file <> [].

(** The attachment [a] is what [handleFileChange] makes of the selected
    file [file]: the file passes the extension test and the size test, its
    text is read, and [a] carries its name, that text, and its type or
    text/plain when it has none. *)
Definition made_from (a : AttachedFile.t) (file : File.t) : Prop :=
  Spec.accepted file
  /\ File.text file = Some (AttachedFile.content a)
  /\ AttachedFile.name a = File.name file
  /\ AttachedFile.type a
     = (if truthy (File.type file) then File.type file else lit "text/plain").

End Composer.

(** ** Plain objects with string values (ProfileData) *)

Module JSObject.

Import JS.

(** The own properties of an object, in the order [Object.keys] lists
    them: the array-index keys in ascending numeric order, then the other
    keys in the order they were created. *)
Definition t := list (jstring * jstring).

Definition is_digit (c : code_unit) : bool := ((48 <=? c) && (c <=? 57))%N.

Fixpoint digits_value (acc : N) (s : jstring) : N :=
  match s with
  | [] => acc
  | c :: s' => digits_value (acc * 10 + (c - 48)) s'
  end.

(** The value of a key that is an array index: a canonical decimal numeral
    (no sign, no leading zero) below 2^32 - 1. *)
Definition array_index (k : jstring) : option N :=
  match k with
  | [] => None
  | c :: rest =>
      if forallb is_digit k
         && (negb (c =? 48)%N || match rest with [] => true | _ :: _ => false end)
      then if (digits_value 0 k <=? 4294967294)%N
           then Some (digits_value 0 k) else None
      else None
  end.

(** [Object.keys]. *)
Definition keys (o : t) : list jstring := map fst o.

Definition has (k : jstring) (o : t) : bool := existsb (fun p => eqb (fst p) k) o.

(** The own property [k], [None] when there is none. *)
Fixpoint get (k : jstring) (o : t) : option jstring :=
  match o with
  | [] => None
  | (k', v) :: o' => if eqb k' k then Some v else get k o'
  end.

Fixpoint update (k v : jstring) (o : t) : t :=
  match o with
  | [] => []
  | (k', v') :: o' => if eqb k' k then (k', v) :: o' else (k', v') :: update k v o'
  end.

(** A new array-index key goes before the first key that is a larger array
    index or no array index. *)
Fixpoint insert_index (i : N) (k v : jstring) (o : t) : t :=
  match o with
  | [] => [(k, v)]
  | (k', v') :: o' =>
      match array_index k' with
      | Some j => if (i <? j)%N then (k, v) :: o
                  else (k', v') :: insert_index i k v o'
      | None => (k, v) :: o
      end
  end.

(** The object literal that spreads [o] and then defines the computed key
    [k]: the value of an existing key is replaced where it stands, a new
    key is created. *)
Definition set (k v : jstring) (o : t) : t :=
  if has k o then update k v o
  else match array_index k with
       | Some i => insert_index i k v o
       | None => o ++ [(k, v)]
       end.

(** [delete o[k]]. *)
Definition delete (k : jstring) (o : t) : t :=
  filter (fun p => negb (eqb (fst p) k)) o.

End JSObject.

(** ** The profile form of the options page (ProfileSettings.tsx) *)

Module ProfileSettings.

Import JS.

(** [interface CustomField]. *)
Record CustomField := mkField { key : jstring; label : jstring }.

(** The four [useState] cells. *)
Record State := mkState {
  formData : JSObject.t;
  customFields : list CustomField;
  newFieldLabel : jstring;
  saved : bool
}.

Inductive Effect :=
| Alert (message : jstring)
| SetProfileData (data : JSObject.t)
| ClearProfileData
| SetTimeout (milliseconds : N).

Definition predefinedFields : list CustomField :=
  [mkField (lit "name") (lit "Full Name");
   mkField (lit "email") (lit "Email");
   mkField (lit "phone") (lit "Phone Number");
   mkField (lit "dateOfBirth") (lit "Date of Birth");
   mkField (lit "address") (lit "Address");
   mkField (lit "college") (lit "College/University");
   mkField (lit "job") (lit "Job Title");
   mkField (lit "age") (lit "Age")].

(** [fields.find(f => f.key === k)], as the test the code makes of it. *)
Definition find_key (k : jstring) (fields : list CustomField) : bool :=
  existsb (fun f => eqb (key f) k) fields.

Definition initial : State := mkState [] [] [] false.

(** The effect that runs when [profileData] changes. *)
Definition loadProfile (profileData : JSObject.t) (s : State) : State :=
  let customKeys :=
    filter (fun k => negb (find_key k predefinedFields)) (JSObject.keys profileData) in
  mkState profileData (map (fun k => mkField k k) customKeys)
          (newFieldLabel s) (saved s).

Definition handleFieldChange (field value : jstring) (s : State) : State :=
  mkState (JSObject.set field value (formData s)) (customFields s)
          (newFieldLabel s) (saved s).

(** [handleSave]; [stored] tells whether the promise of
    [profileStore.setProfileData] is fulfilled.  When it is rejected the
    handler stops there. *)
Definition handleSave (stored : bool) (s : State) : State * list Effect :=
  if stored
  then (mkState (formData s) (customFields s) (newFieldLabel s) true,
        [SetProfileData (formData s); SetTimeout 3000])
  else (s, [SetProfileData (formData s)]).

(** The callback [handleSave] hands to [setTimeout]. *)
Definition saveTimeout (s : State) : State :=
  mkState (formData s) (customFields s) (newFieldLabel s) false.

(** [handleClear]; [cleared] tells whether the promise of
    [profileStore.clearProfileData] is fulfilled. *)
Definition handleClear (cleared : bool) (s : State) : State * list Effect :=
  if cleared
  then (mkState [] [] (newFieldLabel s) (saved s), [ClearProfileData])
  else (s, [ClearProfileData]).

Definition underscore : code_unit := 95%N.

(** The class [a-z0-9]. *)
Definition is_key_char (c : code_unit) : bool :=
  (((97 <=? c) && (c <=? 122)) || ((48 <=? c) && (c <=? 57)))%N.

(** [.replace(/[^a-z0-9]+/g, '_')]: each maximal run of code units outside
    the class becomes one underscore.  [in_run] tells that the code unit
    before was outside the class. *)
Fixpoint replace_runs (in_run : bool) (s : jstring) : jstring :=
  match s with
  | [] => []
  | c :: s' =>
      if is_key_char c then c :: replace_runs false s'
      else if in_run then replace_runs true s'
      else underscore :: replace_runs true s'
  end.

Fixpoint drop_underscores (s : jstring) : jstring :=
  match s with
  | [] => []
  | c :: s' => if (c =? underscore)%N then drop_underscores s' else s
  end.

(** [.replace(/^_+|_+$/g, '')]: the underscores at the start and those at
    the end go. *)
Definition strip_underscores (s : jstring) : jstring :=
  rev (drop_underscores (rev (drop_underscores s))).

Definition labelToKey (label : jstring) : jstring :=
  strip_underscores (replace_runs false (toLowerCase label)).

Definition addCustomField (s : State) : State * list Effect :=
  if truthy (trim (newFieldLabel s)) then
    let fieldKey := labelToKey (newFieldLabel s) in
    if find_key fieldKey predefinedFields || find_key fieldKey (customFields s)
    then (s, [Alert (lit "A field with this name already exists!")])
    else (mkState (JSObject.set fieldKey (lit "") (formData s))
                  (customFields s ++ [mkField fieldKey (trim (newFieldLabel s))])
                  (lit "") (saved s),
          [])
  else (s, []).

Definition removeCustomField (k : jstring) (s : State) : State :=
  mkState (JSObject.delete k (formData s))
          (filter (fun field => negb (eqb (key field) k)) (customFields s))
          (newFieldLabel s) (saved s).

(** The events of the form.  A text input exists only for a predefined or
    a custom field, and a remove button only for a custom field; the key
    press handler of the label input calls [addCustomField] on Enter. *)
Inductive Event :=
| ProfileLoaded (profileData : JSObject.t)
| FieldChange (field value : jstring)
| LabelChange (value : jstring)
| LabelKeyPress (pressed : jstring)
| AddClick
| RemoveClick (k : jstring)
| SaveClick (stored : bool)
| SaveTimeout
| ClearClick (cleared : bool).

Definition handle (ev : Event) (s : State) : State * list Effect :=
  match ev with
  | ProfileLoaded profileData => (loadProfile profileData s, [])
  | FieldChange field value => (handleFieldChange field value s, [])
  | LabelChange value =>
      (mkState (formData s) (customFields s) value (saved s), [])
  | LabelKeyPress pressed =>
      if eqb pressed (lit "Enter") then addCustomField s else (s, [])
  | AddClick => addCustomField s
  | RemoveClick k => (removeCustomField k s, [])
  | SaveClick stored => handleSave stored s
  | SaveTimeout => (saveTimeout s, [])
  | ClearClick cleared => handleClear cleared s
  end.

(** The keys of the fields the form shows an input for. *)
Definition shown_keys (s : State) : list jstring :=
  map key predefinedFields ++ map key (customFields s).

(** The events the rendered form can raise in state [s]; a loaded profile
    is an object, whose keys are distinct. *)
Definition offered (s : State) (ev : Event) : Prop :=
  match ev with
  | ProfileLoaded profileData => NoDup (JSObject.keys profileData)
  | FieldChange field _ => In field (shown_keys s)
  | RemoveClick k => In k (map key (customFields s))
  | _ => True
  end.

Inductive reachable : State -> Prop :=
| reachable_initial : reachable initial
| reachable_step s ev :
    reachable s -> offered s ev -> reachable (fst (handle ev s)).

(** The custom fields have distinct keys, none of them predefined, and the
    form data is an object that holds nothing but shown fields. *)
Definition consistent (s : State) : Prop :=
  NoDup (map key (customFields s))
  /\ (forall k, In k (map key (customFields s)) ->
                ~ In k (map key predefinedFields))
  /\ NoDup (JSObject.keys (formData s))
  /\ (forall k, In k (JSObject.keys (formData s)) -> In k (shown_keys s)).

(** Every custom field has an own property in the form data. *)
Definition backed (s : State) : Prop :=
  forall k, In k (map key (customFields s)) -> In k (JSObject.keys (formData s)).

(** The code units a key is made of. *)
Definition key_unit (c : code_unit) : Prop :=
  is_key_char c = true \/ c = underscore.

End ProfileSettings.

(** ** The tabs of the options page (Options.tsx) *)

Module Options.

(** [type TabTypes]. *)
Inductive TabTypes := general | models | firewall | analytics | form_data.

Definition tab_eqb (a b : TabTypes) : bool :=
  match a, b with
  | general, general | models, models | firewall, firewall
  | analytics, analytics | form_data, form_data => true
  | _, _ => false
  end.

(** The [id]s of [TABS], in their order; the icon and the label of an item
    play no part in the handlers. *)
Definition TABS : list TabTypes := [general; models; firewall; form_data].

(** The settings panels, each with the [isDarkMode] it is given. *)
Inductive Panel :=
| GeneralSettings (isDarkMode : bool)
| ModelSettings (isDarkMode : bool)
| FirewallSettings (isDarkMode : bool)
| ProfileSettingsPanel (isDarkMode : bool).

(** The two [useState] cells. *)
Record State := mkState { activeTab : TabTypes; isDarkMode : bool }.

Definition initial : State := mkState models false.

Definition handleTabClick (tabId : TabTypes) (s : State) : State :=
  mkState tabId (isDarkMode s).

(** [handleChange] of the media query listener, and the first reading of
    the query when the page mounts. *)
Definition handleChange (colorSchemeIsDark : bool) (s : State) : State :=
  mkState (activeTab s) colorSchemeIsDark.

(** [renderTabContent]; [None] is the [null] of the default case. *)
Definition renderTabContent (s : State) : option Panel :=
  match activeTab s with
  | general => Some (GeneralSettings (isDarkMode s))
  | models => Some (ModelSettings (isDarkMode s))
  | firewall => Some (FirewallSettings (isDarkMode s))
  | form_data => Some (ProfileSettingsPanel (isDarkMode s))
  | analytics => None
  end.

(** The navigation button of [item] takes the look of the active tab
    unless [activeTab !== item.id]. *)
Definition looks_active (s : State) (item : TabTypes) : bool :=
  negb (negb (tab_eqb (activeTab s) item)).

(** The events of the page: a click on the navigation button of an item,
    or a change of the colour scheme. *)
Inductive Event := TabClick (item : TabTypes) | SchemeChange (isDark : bool).

Definition handle (ev : Event) (s : State) : State :=
  match ev with
  | TabClick item => handleTabClick item s
  | SchemeChange isDark => handleChange isDark s
  end.

(** The page has a button for the items of [TABS] only. *)
Definition offered (ev : Event) : Prop :=
  match ev with
  | TabClick item => In item TABS
  | SchemeChange _ => True
  end.

Definition run (events : list Event) (s : State) : State :=
  fold_left (fun s ev => handle ev s) events s.

End Options.

(** ** Properties *)

Import JS ChatInput Spec.

Unset Implicit Arguments.

(** *** The string built-ins *)

Lemma eqb_eq (s t : jstring) : eqb s t = true <-> s = t.
Proof.
  revert t; induction s as [|c s IH]; intros [|d t]; simpl; split;
    try congruence; try reflexivity.
  - intros H. apply andb_prop in H as [Hc Hs].
    apply N.eqb_eq in Hc. apply IH in Hs. congruence.
  - intros H. injection H as -> ->.
    rewrite N.eqb_refl. simpl. now apply IH.
Qed.

Lemma eqb_refl (s : jstring) : eqb s s = true.
Proof. now apply eqb_eq. Qed.

Lemma truthy_true (s : jstring) : truthy s = true <-> s <> [].
Proof. destruct s; simpl; split; congruence. Qed.

Lemma truthy_false (s : jstring) : truthy s = false <-> s = [].
Proof. destruct s; simpl; split; congruence. Qed.

Lemma nonempty_length (A : Type) (l : list A) :
  (0 <? length l)%nat = true <-> l <> [].
Proof.
  destruct l as [|x l]; simpl; split; intros H.
  - discriminate H.
  - now elim H.
  - discriminate.
  - reflexivity.
Qed.

Lemma empty_length (A : Type) (l : list A) :
  (0 <? length l)%nat = false <-> l = [].
Proof.
  destruct l as [|x l]; cbn; split; intros H;
    try reflexivity; discriminate H.
Qed.

(** *** [handleSubmit] *)

(** The two outcomes of [handleSubmit], by its guard. *)
Lemma handleSubmit_run (s : State) :
  handleSubmit s =
  if truthy (trim (text s)) || (0 <? length (attachedFiles s))%nat
  then (tt, mkState [] [] (fileInputValue s),
        [PreventDefault;
         OnSendMessage (messageContent (trim (text s)) (attachedFiles s))
                       (displayContent (trim (text s)) (attachedFiles s))])
  else (tt, s, [PreventDefault]).
Proof.
  unfold handleSubmit, bind, emit, get, ret, setText, setAttachedFiles.
  destruct (truthy (trim (text s)) || (0 <? length (attachedFiles s))%nat);
    reflexivity.
Qed.

Lemma can_submit_guard (s : State) :
  can_submit s <->
  truthy (trim (text s)) || (0 <? length (attachedFiles s))%nat = true.
Proof.
  unfold can_submit. rewrite orb_true_iff, truthy_true, nonempty_length.
  reflexivity.
Qed.

(** C3: with no attachment and a trimmed text that is not empty,
    [handleSubmit] calls [onSendMessage] once, and both arguments are the
    trimmed text. *)
Theorem submit_text_only (s : State) :
  attachedFiles s = [] ->
  trim (text s) <> [] ->
  effects_of (handleSubmit s)
  = [PreventDefault; OnSendMessage (trim (text s)) (trim (text s))].
Proof.
  intros Hnone Htext. rewrite handleSubmit_run.
  apply truthy_true in Htext. rewrite Htext, Hnone. reflexivity.
Qed.

Lemma submit_text_only_witness :
  attachedFiles (mkState (lit "  Hello ") [] None) = []
  /\ trim (text (mkState (lit "  Hello ") [] None)) <> []
  /\ effects_of (handleSubmit (mkState (lit "  Hello ") [] None))
     = [PreventDefault; OnSendMessage (lit "Hello") (lit "Hello")].
Proof.
  assert (Hnone : attachedFiles (mkState (lit "  Hello ") [] None) = [])
    by reflexivity.
  assert (Htext : trim (text (mkState (lit "  Hello ") [] None)) <> [])
    by (vm_compute; discriminate).
  split; [exact Hnone|]. split; [exact Htext|].
  exact (submit_text_only (mkState (lit "  Hello ") [] None) Hnone Htext).
Defined.

(** C4: whenever the guard of [handleSubmit] holds, the state it leaves has
    an empty text buffer and an empty attachment sequence. *)
Theorem submit_resets (s : State) :
  can_submit s ->
  text (state_of (handleSubmit s)) = []
  /\ attachedFiles (state_of (handleSubmit s)) = [].
Proof.
  intros H. apply can_submit_guard in H.
  rewrite handleSubmit_run, H. split; reflexivity.
Qed.

Lemma submit_resets_witness :
  can_submit hello
  /\ text (state_of (handleSubmit hello)) = []
  /\ attachedFiles (state_of (handleSubmit hello)) = [].
Proof.
  assert (H : can_submit hello) by (left; vm_compute; discriminate).
  split; [exact H|]. exact (submit_resets hello H).
Defined.

(** C5: when the trimmed text is empty and nothing is attached,
    [handleSubmit] does not call [onSendMessage] (its only effect is
    [preventDefault] on the event) and leaves the whole state, text buffer
    and attachment sequence included, as it was. *)
Theorem submit_noop (s : State) :
  trim (text s) = [] ->
  attachedFiles s = [] ->
  state_of (handleSubmit s) = s
  /\ effects_of (handleSubmit s) = [PreventDefault]
  /\ (forall payload display,
        ~ In (OnSendMessage payload display) (effects_of (handleSubmit s))).
Proof.
  intros Htext Hnone.
  rewrite handleSubmit_run, Htext, Hnone. simpl.
  repeat split.
  intros payload display [H | []]. discriminate H.
Qed.

Lemma submit_noop_witness :
  trim (text (mkState (lit "   ") [] None)) = []
  /\ attachedFiles (mkState (lit "   ") [] None) = []
  /\ state_of (handleSubmit (mkState (lit "   ") [] None))
     = mkState (lit "   ") [] None
  /\ effects_of (handleSubmit (mkState (lit "   ") [] None)) = [PreventDefault].
Proof.
  assert (Htext : trim (text (mkState (lit "   ") [] None)) = []) by reflexivity.
  assert (Hnone : attachedFiles (mkState (lit "   ") [] None) = []) by reflexivity.
  split; [exact Htext|]. split; [exact Hnone|].
  destruct (submit_noop (mkState (lit "   ") [] None) Htext Hnone) as (Hs & He & _).
  split; [exact Hs | exact He].
Defined.

(** C10: [handleSubmit] does not read the [disabled] prop.  In a disabled
    composer the send button is disabled, yet for every state that passes
    the guard a call of [handleSubmit] still calls [onSendMessage] and
    clears the text buffer and the attachment sequence. *)
Theorem submit_ignores_disabled (p : ChatInput.Props) (s : State) :
  disabled p = true ->
  can_submit s ->
  isSendButtonDisabled p s = true
  /\ effects_of (handleSubmit s)
     = [PreventDefault;
        OnSendMessage (messageContent (trim (text s)) (attachedFiles s))
                      (displayContent (trim (text s)) (attachedFiles s))]
  /\ text (state_of (handleSubmit s)) = []
  /\ attachedFiles (state_of (handleSubmit s)) = [].
Proof.
  intros Hd H. apply can_submit_guard in H.
  unfold isSendButtonDisabled. rewrite Hd, handleSubmit_run, H.
  repeat split.
Qed.

Lemma submit_ignores_disabled_witness :
  disabled (mkProps true false None) = true
  /\ can_submit hello
  /\ isSendButtonDisabled (mkProps true false None) hello = true
  /\ text (state_of (handleSubmit hello)) = []
  /\ attachedFiles (state_of (handleSubmit hello)) = [].
Proof.
  assert (Hd : disabled (mkProps true false None) = true) by reflexivity.
  assert (H : can_submit hello) by (left; vm_compute; discriminate).
  split; [exact Hd|]. split; [exact H|].
  destruct (submit_ignores_disabled (mkProps true false None) hello Hd H)
    as (Hb & _ & Ht & Ha).
  split; [exact Hb|]. split; [exact Ht | exact Ha].
Defined.

(** *** The payload and the display with attachments *)

Lemma messageContent_attached (T : jstring) (files : list AttachedFile.t) :
  files <> [] ->
  messageContent T files
  = lead T ++ lit "<nano_attached_files>" ++ join nl (map fileBlock files)
      ++ lit "</nano_attached_files>".
Proof.
  intros H. apply nonempty_length in H.
  unfold messageContent, lead. rewrite H.
  destruct (truthy T); [|reflexivity].
  now rewrite <- !app_assoc.
Qed.

Lemma displayContent_attached (T : jstring) (files : list AttachedFile.t) :
  files <> [] ->
  displayContent T files = lead T ++ join nl (map fileLine files).
Proof.
  intros H. apply nonempty_length in H.
  unfold displayContent, lead. rewrite H.
  destruct (truthy T); [|reflexivity].
  now rewrite <- !app_assoc.
Qed.

Lemma fileBlock_shape (file : AttachedFile.t) :
  fileBlock file
  = blockOpen (AttachedFile.name file) ++ AttachedFile.content file ++ blockClose.
Proof.
  unfold fileBlock, blockOpen, blockClose.
  now rewrite <- !app_assoc.
Qed.

Lemma handleSubmit_attached (s : State) :
  attachedFiles s <> [] ->
  effects_of (handleSubmit s)
  = [PreventDefault;
     OnSendMessage
       (lead (trim (text s)) ++ lit "<nano_attached_files>"
          ++ join nl (map fileBlock (attachedFiles s)) ++ lit "</nano_attached_files>")
       (lead (trim (text s)) ++ join nl (map fileLine (attachedFiles s)))].
Proof.
  intros H. rewrite handleSubmit_run.
  rewrite <- (messageContent_attached _ _ H), <- (displayContent_attached _ _ H).
  apply nonempty_length in H. rewrite H, orb_true_r. reflexivity.
Qed.

(** C1, as the specification states it, fails on its own scenario: the
    payload the specification gives is the one its format yields, and it
    is not the payload [handleSubmit] sends. *)
Lemma submit_payload_differs_from_spec :
  Claimed.payload (lit "Hello") [a_txt] = scenario_payload
  /\ exists payload display,
       effects_of (handleSubmit hello)
       = [PreventDefault; OnSendMessage payload display]
       /\ payload <> scenario_payload.
Proof.
  split; [reflexivity|].
  eexists; eexists; split; [reflexivity|].
  vm_compute. discriminate.
Qed.

(** C1, amended: with a non-empty attachment sequence, [handleSubmit] sends
    as payload the trimmed text and two newlines (nothing when the trimmed
    text is empty) followed by the blocks of the attachments, joined by a
    newline, between the tags nano_attached_files; the block of a file is
    two newlines, the opening tag nano_file_content with type file and the
    file's name, a newline, the content, a newline and the closing tag.
    For the text Hello and the one attachment a.txt with content hi, the
    payload and the display are the strings given. *)
Theorem submit_payload_format (s : State) :
  attachedFiles s <> [] ->
  effects_of (handleSubmit s)
  = [PreventDefault;
     OnSendMessage
       ((if truthy (trim (text s)) then trim (text s) ++ nl ++ nl else [])
          ++ lit "<nano_attached_files>"
          ++ join nl (map fileBlock (attachedFiles s))
          ++ lit "</nano_attached_files>")
       (displayContent (trim (text s)) (attachedFiles s))]
  /\ (forall file,
        fileBlock file
        = nl ++ nl ++ lit "<nano_file_content type=" ++ quote ++ lit "file" ++ quote
             ++ lit " name=" ++ quote ++ AttachedFile.name file ++ quote ++ lit ">"
             ++ nl ++ AttachedFile.content file ++ nl ++ lit "</nano_file_content>")
  /\ effects_of (handleSubmit hello)
     = [PreventDefault;
        OnSendMessage
          (lit "Hello" ++ nl ++ nl ++ lit "<nano_attached_files>" ++ nl ++ nl
             ++ lit "<nano_file_content type=" ++ quote ++ lit "file" ++ quote
             ++ lit " name=" ++ quote ++ lit "a.txt" ++ quote ++ lit ">"
             ++ nl ++ lit "hi" ++ nl
             ++ lit "</nano_file_content></nano_attached_files>")
          (lit "Hello" ++ nl ++ nl ++ glyph ++ lit " a.txt")].
Proof.
  intros H. split; [|split].
  - rewrite (handleSubmit_attached s H), (displayContent_attached _ _ H).
    reflexivity.
  - intros file. reflexivity.
  - reflexivity.
Qed.

Lemma submit_payload_format_witness :
  attachedFiles hello <> []
  /\ effects_of (handleSubmit hello)
     = [PreventDefault;
        OnSendMessage
          (lit "Hello" ++ nl ++ nl ++ lit "<nano_attached_files>" ++ nl ++ nl
             ++ lit "<nano_file_content type=" ++ quote ++ lit "file" ++ quote
             ++ lit " name=" ++ quote ++ lit "a.txt" ++ quote ++ lit ">"
             ++ nl ++ lit "hi" ++ nl
             ++ lit "</nano_file_content></nano_attached_files>")
          (lit "Hello" ++ nl ++ nl ++ glyph ++ lit " a.txt")].
Proof.
  assert (H : attachedFiles hello <> []) by (vm_compute; discriminate).
  split; [exact H|].
  rewrite (proj1 (submit_payload_format hello H)). reflexivity.
Defined.

Lemma fileLine_by_name (files : list AttachedFile.t) :
  map fileLine files
  = map (fun fileName => glyph ++ lit " " ++ fileName) (map AttachedFile.name files).
Proof. rewrite map_map. reflexivity. Qed.

Lemma same_names_nonempty (files files' : list AttachedFile.t) :
  map AttachedFile.name files' = map AttachedFile.name files ->
  files <> [] -> files' <> [].
Proof.
  intros Hn H ->. destruct files; [now elim H | discriminate Hn].
Qed.

(** C2, as stated, fails: when the text equals the content of the attached
    file, the display [handleSubmit] sends contains that content. *)
Lemma submit_display_may_contain_content :
  exists payload display,
    effects_of (handleSubmit hi)
    = [PreventDefault; OnSendMessage payload display]
    /\ In a_txt (attachedFiles hi)
    /\ occurs_in (AttachedFile.content a_txt) display.
Proof.
  eexists; eexists; split; [reflexivity|]. split; [now left|].
  exists [], (nl ++ nl ++ glyph ++ lit " a.txt"). reflexivity.
Qed.

(** C2, amended: with a non-empty attachment sequence [A] and trimmed text
    [T], the payload is [T] and two newlines (nothing when [T] is empty)
    followed by an envelope around one block per attachment, joined by
    newlines, in sequence order, the block at position [i] being the
    content of [A[i]] between its own opening tag, which carries the name
    of [A[i]], and the closing tag; the display is [T] and two newlines
    (nothing when [T] is empty) followed by one line per attachment, joined
    by newlines, in sequence order, the line at position [i] being the
    glyph, a space and the name of [A[i]]; and the display is built from
    the text and the names alone, so that every state with the same text
    and the same names gets the same display whatever the contents are. *)
Theorem submit_blocks_and_lines (s : State) :
  attachedFiles s <> [] ->
  exists blocks lines,
    effects_of (handleSubmit s)
    = [PreventDefault;
       OnSendMessage
         (lead (trim (text s)) ++ lit "<nano_attached_files>"
            ++ join nl blocks ++ lit "</nano_attached_files>")
         (lead (trim (text s)) ++ join nl lines)]
    /\ length blocks = length (attachedFiles s)
    /\ length lines = length (attachedFiles s)
    /\ (forall i file,
          nth_error (attachedFiles s) i = Some file ->
          nth_error blocks i
          = Some (blockOpen (AttachedFile.name file)
                    ++ AttachedFile.content file ++ blockClose)
          /\ nth_error lines i = Some (glyph ++ lit " " ++ AttachedFile.name file))
    /\ (forall s',
          text s' = text s ->
          map AttachedFile.name (attachedFiles s')
          = map AttachedFile.name (attachedFiles s) ->
          exists payload',
            effects_of (handleSubmit s')
            = [PreventDefault;
               OnSendMessage payload' (lead (trim (text s)) ++ join nl lines)]).
Proof.
  intros H.
  exists (map fileBlock (attachedFiles s)), (map fileLine (attachedFiles s)).
  split; [exact (handleSubmit_attached s H)|].
  split; [apply length_map|]. split; [apply length_map|]. split.
  - intros i file Hi. split.
    + rewrite nth_error_map, Hi. simpl. now rewrite fileBlock_shape.
    + rewrite nth_error_map, Hi. reflexivity.
  - intros s' Ht Hn. eexists.
    rewrite (handleSubmit_attached s' (same_names_nonempty _ _ Hn H)).
    rewrite Ht, (fileLine_by_name (attachedFiles s')), Hn, <- fileLine_by_name.
    reflexivity.
Qed.

(** *** [handleKeyDown] *)

Lemma plain_enter_test (e : KeyboardEvent) :
  eqb (key e) (lit "Enter") && negb (shiftKey e) && negb (isComposing e) = true
  <-> plain_enter e.
Proof.
  unfold plain_enter.
  rewrite !andb_true_iff, !negb_true_iff, eqb_eq. tauto.
Qed.

Lemma handleSubmit_effects_nonempty (s : State) :
  effects_of (handleSubmit s) <> [].
Proof.
  rewrite handleSubmit_run.
  destruct (truthy (trim (text s)) || (0 <? length (attachedFiles s))%nat);
    discriminate.
Qed.

Lemma handleKeyDown_run (e : KeyboardEvent) (s : State) :
  handleKeyDown e s =
  if eqb (key e) (lit "Enter") && negb (shiftKey e) && negb (isComposing e)
  then (tt, state_of (handleSubmit s), PreventDefault :: effects_of (handleSubmit s))
  else (tt, s, []).
Proof.
  unfold handleKeyDown.
  destruct (eqb (key e) (lit "Enter") && negb (shiftKey e) && negb (isComposing e));
    [|reflexivity].
  unfold bind, emit, state_of, effects_of.
  destruct (handleSubmit s) as [[[] s'] effects]. reflexivity.
Qed.

(** C8: [handleKeyDown] runs [handleSubmit] (after [preventDefault] on the
    event) when the key is Enter, Shift is not held and no composition is
    in progress, and in every other case does nothing at all: no effect,
    and the state as it was.  So it has an effect exactly in the first
    case; in particular Enter with Shift held, and every key other than
    Enter, leave the event to the text area. *)
Theorem keydown_submits_on_plain_enter (e : KeyboardEvent) (s : State) :
  (plain_enter e ->
     state_of (handleKeyDown e s) = state_of (handleSubmit s)
     /\ effects_of (handleKeyDown e s) = PreventDefault :: effects_of (handleSubmit s))
  /\ (~ plain_enter e -> handleKeyDown e s = (tt, s, []))
  /\ (effects_of (handleKeyDown e s) <> [] <-> plain_enter e)
  /\ (key e = lit "Enter" -> shiftKey e = true -> handleKeyDown e s = (tt, s, []))
  /\ (key e <> lit "Enter" -> handleKeyDown e s = (tt, s, [])).
Proof.
  assert (Hno : ~ plain_enter e -> handleKeyDown e s = (tt, s, [])).
  { intros Hn. rewrite handleKeyDown_run.
    destruct (eqb (key e) (lit "Enter") && negb (shiftKey e) && negb (isComposing e))
      eqn:Ht; [|reflexivity].
    apply plain_enter_test in Ht. contradiction. }
  split; [|split; [exact Hno|split; [|split]]].
  - intros Hp. apply plain_enter_test in Hp.
    rewrite handleKeyDown_run, Hp. split; reflexivity.
  - rewrite handleKeyDown_run.
    destruct (eqb (key e) (lit "Enter") && negb (shiftKey e) && negb (isComposing e))
      eqn:Ht.
    + apply plain_enter_test in Ht. split; [intros _; exact Ht | discriminate].
    + split; [intros H; now elim H|].
      intros Hp. apply plain_enter_test in Hp. congruence.
  - intros _ Hshift. apply Hno. intros (_ & Hs & _). congruence.
  - intros Hkey. apply Hno. intros (Hk & _). contradiction.
Qed.

(** *** [handleRemoveFile] *)

Section Remove.

Variable A : Type.
Variable index : Z.

Lemma filter_from_outside (l : list A) :
  forall k, (index < Z.of_nat k \/ Z.of_nat (k + length l) <= index)%Z ->
            filter_from (fun _ i => negb (Z.eqb (Z.of_nat i) index)) k l = l.
Proof.
  induction l as [|x l IH]; intros k Hk; simpl; [reflexivity|].
  destruct (Z.eqb_spec (Z.of_nat k) index) as [Heq|Hne]; simpl in *.
  - lia.
  - f_equal. apply IH. lia.
Qed.

Lemma filter_from_inside (l : list A) :
  forall k i, (i < length l)%nat -> index = Z.of_nat (k + i) ->
              filter_from (fun _ i => negb (Z.eqb (Z.of_nat i) index)) k l
              = firstn i l ++ skipn (S i) l.
Proof.
  induction l as [|x l IH]; intros k i Hi Hindex; simpl in Hi; [lia|].
  simpl filter_from.
  destruct i as [|i].
  - replace (k + 0)%nat with k in Hindex by lia.
    rewrite <- Hindex, Z.eqb_refl. simpl.
    apply filter_from_outside. lia.
  - destruct (Z.eqb_spec (Z.of_nat k) index) as [Heq|Hne]; [lia|].
    simpl. f_equal. apply IH; lia.
Qed.

End Remove.

(** C7: [handleRemoveFile] at a valid position [i] leaves the entries
    before [i] followed by the entries after [i], each in the order it had,
    which is one entry fewer; at any other index it leaves the attachment
    sequence as it was.  It never touches the text buffer. *)
Theorem remove_at_index (index : Z) (s : State) :
  let before := attachedFiles s in
  let after := attachedFiles (state_of (handleRemoveFile index s)) in
  ((0 <= index < Z.of_nat (length before))%Z ->
     after = firstn (Z.to_nat index) before ++ skipn (S (Z.to_nat index)) before
     /\ S (length after) = length before
     /\ (forall j, (j < Z.to_nat index)%nat -> nth_error after j = nth_error before j)
     /\ (forall j, (Z.to_nat index <= j)%nat ->
                   nth_error after j = nth_error before (S j)))
  /\ (~ (0 <= index < Z.of_nat (length before))%Z -> after = before)
  /\ text (state_of (handleRemoveFile index s)) = text s.
Proof.
  cbv zeta. unfold handleRemoveFile, setAttachedFiles, state_of, filter_indexed.
  simpl. split; [|split; [|reflexivity]].
  - intros Hi.
    assert (Hlt : (Z.to_nat index < length (attachedFiles s))%nat) by lia.
    rewrite (filter_from_inside _ index (attachedFiles s) 0 (Z.to_nat index) Hlt)
      by (simpl; lia).
    split; [reflexivity|]. split; [|split].
    + rewrite length_app, length_firstn, length_skipn. lia.
    + intros j Hj. rewrite nth_error_app1 by (rewrite length_firstn; lia).
      rewrite nth_error_firstn.
      destruct (Nat.ltb_spec j (Z.to_nat index)); [reflexivity|lia].
    + intros j Hj. rewrite nth_error_app2 by (rewrite length_firstn; lia).
      rewrite nth_error_skipn, length_firstn.
      replace (S (Z.to_nat index)
               + (j - Nat.min (Z.to_nat index) (length (attachedFiles s))))%nat
        with (S j) by lia.
      reflexivity.
  - intros Ho. apply filter_from_outside. simpl. lia.
Qed.

(** *** [handleFileChange] *)

Lemma split_not_nil (sep : code_unit) (s : jstring) : split sep s <> [].
Proof.
  induction s as [|c s IH]; simpl; [discriminate|].
  destruct (N.eqb c sep); [discriminate|].
  destruct (split sep s); discriminate.
Qed.

Lemma split_without_separator (sep : code_unit) (s : jstring) :
  ~ In sep s -> split sep s = [s].
Proof.
  induction s as [|c s IH]; intros Hs; simpl; [reflexivity|].
  destruct (N.eqb_spec c sep) as [->|_].
  - elim Hs. now left.
  - rewrite IH; [reflexivity|]. intros H. apply Hs. now right.
Qed.

Lemma pop_last (A : Type) (l : list A) (d : A) :
  l <> [] -> pop l = Some (last l d).
Proof.
  induction l as [|x l IH]; intros H; [now elim H|].
  destruct l as [|y l]; [reflexivity|].
  change (pop (y :: l) = Some (last (y :: l) d)).
  apply IH. discriminate.
Qed.

(** The optional chain of [fileExt] never meets [undefined]. *)
Lemma fileExt_extension (fileName : jstring) :
  fileExt fileName = dot :: extension fileName.
Proof.
  unfold fileExt, extension.
  pose proof (pop_last jstring (split dot fileName) [] (split_not_nil dot fileName))
    as Hpop.
  now rewrite Hpop.
Qed.

Lemma allowedTypes_words : allowedTypes = map (cons dot) allowedWords.
Proof. reflexivity. Qed.

Lemma includes_In (l : list jstring) (s : jstring) :
  includes l s = true <-> In s l.
Proof.
  unfold includes. rewrite existsb_exists. split.
  - intros (t & Ht & Heq). apply eqb_eq in Heq. now subst.
  - intros H. exists s. split; [exact H | apply eqb_refl].
Qed.

Lemma allowed_extension (fileName : jstring) :
  includes allowedTypes (fileExt fileName) = true
  <-> In (extension fileName) allowedWords.
Proof.
  rewrite includes_In, fileExt_extension, allowedTypes_words, in_map_iff.
  split.
  - intros (w & Hw & Hin). injection Hw as ->. exact Hin.
  - intros H. now exists (extension fileName).
Qed.

Lemma readFiles_run (files : list File.t) :
  forall newFiles s,
    readFiles files newFiles s
    = (newFiles ++ flat_map contribution files, s, flat_map logged files).
Proof.
  induction files as [|file rest IH]; intros newFiles s;
    cbn [readFiles flat_map].
  - unfold ret. now rewrite app_nil_r.
  - unfold contribution, logged. rewrite N.ltb_antisym.
    destruct (includes allowedTypes (fileExt (File.name file)));
      [destruct (File.size file <=? 1024 * 1024)%N;
       [destruct (File.text file) as [content|]|]|];
      cbn [negb andb]; unfold bind, emit; rewrite IH;
      cbn [app]; rewrite <- ?app_assoc; reflexivity.
Qed.

Lemma handleFileChange_run (files : list File.t) (s : State) :
  attachedFiles (state_of (handleFileChange (Some files) s))
  = attachedFiles s ++ flat_map contribution files
  /\ text (state_of (handleFileChange (Some files) s)) = text s
  /\ effects_of (handleFileChange (Some files) s) = flat_map logged files.
Proof.
  destruct files as [|file rest].
  - simpl. now rewrite app_nil_r.
  - unfold handleFileChange, bind. rewrite readFiles_run. simpl app at 1.
    unfold state_of, effects_of, setAttachedFiles, resetFileInput, ret.
    destruct (flat_map contribution (file :: rest)) as [|a added] eqn:Hadded;
      simpl; destruct (fileInputValue s); simpl;
      rewrite ?app_nil_r; repeat split.
Qed.

Lemma accepted_test (file : File.t) :
  accepted file
  <-> includes allowedTypes (fileExt (File.name file)) = true
      /\ (File.size file <=? 1024 * 1024)%N = true
      /\ File.text file <> None.
Proof.
  unfold accepted. now rewrite allowed_extension, N.leb_le.
Qed.

Lemma accepted_contribution (file : File.t) :
  accepted file ->
  exists content,
    File.text file = Some content
    /\ contribution file
       = [AttachedFile.Build (File.name file) content
            (if truthy (File.type file) then File.type file else lit "text/plain")]
    /\ logged file = [].
Proof.
  intros H. apply accepted_test in H as (Hext & Hsize & Htext).
  unfold contribution, logged.
  rewrite N.ltb_antisym, Hext, Hsize. cbn [negb andb].
  destruct (File.text file) as [content|]; [|now elim Htext].
  now exists content.
Qed.

Lemma rejected_contribution (file : File.t) :
  ~ accepted file ->
  contribution file = []
  /\ exists e, logged file = [e] /\ is_log e.
Proof.
  intros H. rewrite accepted_test in H.
  unfold contribution, logged. rewrite N.ltb_antisym.
  destruct (includes allowedTypes (fileExt (File.name file)));
    [destruct (File.size file <=? 1024 * 1024)%N;
     [destruct (File.text file) as [content|]|]|];
    cbn [negb andb].
  - elim H. repeat split. discriminate.
  - split; [reflexivity|]. eexists. split; [reflexivity | exact I].
  - split; [reflexivity|]. eexists. split; [reflexivity | exact I].
  - split; [reflexivity|]. eexists. split; [reflexivity | exact I].
Qed.

Lemma logged_is_log (file : File.t) : Forall is_log (logged file).
Proof.
  unfold logged.
  destruct (negb (includes allowedTypes (fileExt (File.name file))));
    [|destruct (1024 * 1024 <? File.size file)%N;
      [|destruct (File.text file)]];
    repeat constructor.
Qed.

Lemma single_selection (file : File.t) (s : State) :
  attachedFiles (state_of (handleFileChange (Some [file]) s))
  = attachedFiles s ++ contribution file.
Proof.
  destruct (handleFileChange_run [file] s) as (H & _).
  rewrite H. cbn [flat_map]. now rewrite app_nil_r.
Qed.

(** C6: [handleFileChange] appends to the attachment sequence, in the order
    of the selection, one entry for each selected file that is accepted,
    and nothing for any other: a file is accepted exactly when its
    lower-cased extension is one of txt, md, markdown, json, csv, log, xml,
    yaml, yml, its size is at most 1 MiB and reading its text succeeds.
    Each file that is not accepted produces one console warning or error
    and nothing else; the handler has no other effect, fails on no
    selection, and leaves the text buffer alone.  A selection of one file
    with extension exe, or of one file larger than 1 MiB, leaves the
    attachment sequence unchanged. *)
Theorem attach_keeps_accepted_files (files : list File.t) (s : State) :
  attachedFiles (state_of (handleFileChange (Some files) s))
  = attachedFiles s ++ flat_map contribution files
  /\ text (state_of (handleFileChange (Some files) s)) = text s
  /\ effects_of (handleFileChange (Some files) s) = flat_map logged files
  /\ Forall is_log (effects_of (handleFileChange (Some files) s))
  /\ (forall file,
        accepted file ->
        exists content,
          File.text file = Some content
          /\ contribution file
             = [AttachedFile.Build (File.name file) content
                  (if truthy (File.type file) then File.type file
                   else lit "text/plain")]
          /\ logged file = [])
  /\ (forall file,
        ~ accepted file ->
        contribution file = [] /\ exists e, logged file = [e] /\ is_log e)
  /\ (forall file,
        extension (File.name file) = lit "exe" ->
        attachedFiles (state_of (handleFileChange (Some [file]) s)) = attachedFiles s)
  /\ (forall file,
        (1024 * 1024 < File.size file)%N ->
        attachedFiles (state_of (handleFileChange (Some [file]) s)) = attachedFiles s).
Proof.
  destruct (handleFileChange_run files s) as (Hfiles & Htext & Hlog).
  split; [exact Hfiles|]. split; [exact Htext|]. split; [exact Hlog|].
  split; [|split; [exact accepted_contribution|split; [exact rejected_contribution|]]].
  - rewrite Hlog. apply Forall_flat_map, Forall_forall.
    intros file _. apply logged_is_log.
  - split; intros file H; rewrite single_selection;
      (destruct (rejected_contribution file) as [-> _]; [|apply app_nil_r]);
      intros (Hext & Hsize & _).
    + rewrite H in Hext. vm_compute in Hext. intuition discriminate.
    + apply N.lt_nge in H. contradiction.
Qed.

Lemma dotless_extension (fileName : jstring) :
  ~ In dot fileName -> extension fileName = toLowerCase fileName.
Proof.
  intros Hdot. unfold extension.
  now rewrite (split_without_separator dot fileName Hdot).
Qed.

(** An allowed word has no dot and is in lower case already. *)
Lemma allowed_word_plain (w : jstring) :
  In w allowedWords -> ~ In dot w /\ toLowerCase w = w.
Proof.
  unfold allowedWords. intros H.
  repeat (destruct H as [<- | H]); try contradiction;
    (split; [vm_compute; intuition discriminate | reflexivity]).
Qed.

Lemma single_accepted (file : File.t) (s : State) (content : jstring) :
  In (extension (File.name file)) allowedWords ->
  (File.size file <= 1024 * 1024)%N ->
  File.text file = Some content ->
  attachedFiles (state_of (handleFileChange (Some [file]) s))
  = attachedFiles s
      ++ [AttachedFile.Build (File.name file) content
            (if truthy (File.type file) then File.type file else lit "text/plain")].
Proof.
  intros Hext Hsize Htext. rewrite single_selection.
  apply allowed_extension in Hext. apply N.leb_le in Hsize.
  unfold contribution. rewrite Hext, Hsize, Htext. reflexivity.
Qed.

Lemma single_not_allowed (file : File.t) (s : State) :
  ~ In (extension (File.name file)) allowedWords ->
  attachedFiles (state_of (handleFileChange (Some [file]) s)) = attachedFiles s.
Proof.
  intros Hext. rewrite single_selection.
  destruct (rejected_contribution file) as [-> _]; [|apply app_nil_r].
  intros (H & _). contradiction.
Qed.

(** C9: for a file name without a dot, [fileExt] is a dot followed by the
    whole name in lower case, and that alone decides the extension test: a
    file with such a name is attached, when it is small enough and
    readable, exactly when its whole name in lower case is one of the
    allowed words, and is skipped otherwise.  So a file named README is
    skipped, whatever its size and content, while a file whose whole name
    is an allowed word, whichever of them, has that word after a dot as
    its extension and is attached; so has the file named txt, with
    extension .txt. *)
Theorem extension_of_dotless_name (fileName : jstring) :
  ~ In dot fileName ->
  fileExt fileName = dot :: toLowerCase fileName
  /\ (forall file s,
        File.name file = lit "README" ->
        attachedFiles (state_of (handleFileChange (Some [file]) s)) = attachedFiles s)
  /\ (forall file s content,
        File.name file = lit "txt" ->
        (File.size file <= 1024 * 1024)%N ->
        File.text file = Some content ->
        fileExt (File.name file) = lit ".txt"
        /\ attachedFiles (state_of (handleFileChange (Some [file]) s))
           = attachedFiles s
               ++ [AttachedFile.Build (lit "txt") content
                     (if truthy (File.type file) then File.type file
                      else lit "text/plain")])
  /\ (forall word file s content,
        In word allowedWords ->
        File.name file = word ->
        (File.size file <= 1024 * 1024)%N ->
        File.text file = Some content ->
        fileExt (File.name file) = dot :: word
        /\ includes allowedTypes (fileExt (File.name file)) = true
        /\ attachedFiles (state_of (handleFileChange (Some [file]) s))
           = attachedFiles s
               ++ [AttachedFile.Build word content
                     (if truthy (File.type file) then File.type file
                      else lit "text/plain")])
  /\ (forall file s content,
        File.name file = fileName ->
        In (toLowerCase fileName) allowedWords ->
        (File.size file <= 1024 * 1024)%N ->
        File.text file = Some content ->
        attachedFiles (state_of (handleFileChange (Some [file]) s))
        = attachedFiles s
            ++ [AttachedFile.Build fileName content
                  (if truthy (File.type file) then File.type file
                   else lit "text/plain")])
  /\ (forall file s,
        File.name file = fileName ->
        ~ In (toLowerCase fileName) allowedWords ->
        attachedFiles (state_of (handleFileChange (Some [file]) s)) = attachedFiles s).
Proof.
  intros Hdot. split; [|split; [|split; [|split; [|split]]]].
  - unfold fileExt. now rewrite (split_without_separator dot fileName Hdot).
  - intros file s Hname. rewrite single_selection.
    unfold contribution. rewrite Hname.
    change (includes allowedTypes (fileExt (lit "README"))) with false.
    apply app_nil_r.
  - intros file s content Hname Hsize Htext. rewrite single_selection.
    unfold contribution. rewrite Hname, Htext.
    change (includes allowedTypes (fileExt (lit "txt"))) with true.
    apply N.leb_le in Hsize. rewrite Hsize. split; reflexivity.
  - intros word file s content Hword Hname Hsize Htext.
    destruct (allowed_word_plain word Hword) as (Hplain & Hlower).
    assert (Hext : extension (File.name file) = word).
    { rewrite Hname, (dotless_extension word Hplain). exact Hlower. }
    assert (Hin : In (extension (File.name file)) allowedWords)
      by (now rewrite Hext).
    split; [now rewrite fileExt_extension, Hext|].
    split; [now apply allowed_extension|].
    rewrite (single_accepted file s content Hin Hsize Htext), Hname.
    reflexivity.
  - intros file s content Hname Hword Hsize Htext.
    assert (Hin : In (extension (File.name file)) allowedWords).
    { now rewrite Hname, (dotless_extension fileName Hdot). }
    rewrite (single_accepted file s content Hin Hsize Htext), Hname.
    reflexivity.
  - intros file s Hname Hword. apply single_not_allowed.
    now rewrite Hname, (dotless_extension fileName Hdot).
Qed.

(** *** The theorems at concrete inputs *)

Lemma submit_blocks_and_lines_witness :
  attachedFiles hello <> []
  /\ exists blocks lines,
       effects_of (handleSubmit hello)
       = [PreventDefault;
          OnSendMessage
            (lead (trim (text hello)) ++ lit "<nano_attached_files>"
               ++ join nl blocks ++ lit "</nano_attached_files>")
            (lead (trim (text hello)) ++ join nl lines)]
       /\ nth_error blocks 0
          = Some (blockOpen (lit "a.txt") ++ lit "hi" ++ blockClose)
       /\ nth_error lines 0 = Some (glyph ++ lit " a.txt").
Proof.
  assert (H : attachedFiles hello <> []) by (vm_compute; discriminate).
  split; [exact H|].
  destruct (submit_blocks_and_lines hello H)
    as (blocks & lines & Heff & _ & _ & Hnth & _).
  exists blocks, lines. split; [exact Heff|].
  exact (Hnth 0%nat a_txt eq_refl).
Defined.

Lemma keydown_submits_on_plain_enter_witness :
  plain_enter (mkKey (lit "Enter") false false)
  /\ state_of (handleKeyDown (mkKey (lit "Enter") false false) hello)
     = state_of (handleSubmit hello)
  /\ effects_of (handleKeyDown (mkKey (lit "Enter") false false) hello)
     = PreventDefault :: effects_of (handleSubmit hello)
  /\ handleKeyDown (mkKey (lit "Enter") true false) hello = (tt, hello, [])
  /\ handleKeyDown (mkKey (lit "a") false false) hello = (tt, hello, []).
Proof.
  assert (H : plain_enter (mkKey (lit "Enter") false false))
    by (repeat split).
  split; [exact H|].
  destruct (keydown_submits_on_plain_enter (mkKey (lit "Enter") false false) hello)
    as (Hsubmit & _).
  destruct (Hsubmit H) as (Hstate & Heffects).
  split; [exact Hstate|]. split; [exact Heffects|]. split.
  - destruct (keydown_submits_on_plain_enter (mkKey (lit "Enter") true false) hello)
      as (_ & _ & _ & Hshift & _).
    exact (Hshift eq_refl eq_refl).
  - destruct (keydown_submits_on_plain_enter (mkKey (lit "a") false false) hello)
      as (_ & _ & _ & _ & Hother).
    apply Hother. vm_compute. discriminate.
Defined.

Lemma remove_at_index_witness :
  (0 <= 1 < Z.of_nat (length [AttachedFile.Build (lit "a") [] [];
                               AttachedFile.Build (lit "b") [] [];
                               AttachedFile.Build (lit "c") [] []]))%Z
  /\ attachedFiles
       (state_of (handleRemoveFile 1
          (mkState [] [AttachedFile.Build (lit "a") [] [];
                       AttachedFile.Build (lit "b") [] [];
                       AttachedFile.Build (lit "c") [] []] None)))
     = [AttachedFile.Build (lit "a") [] []; AttachedFile.Build (lit "c") [] []]
  /\ attachedFiles (state_of (handleRemoveFile 3 hello)) = attachedFiles hello
  /\ attachedFiles (state_of (handleRemoveFile (-1) hello)) = attachedFiles hello.
Proof.
  assert (H : (0 <= 1 < Z.of_nat (length [AttachedFile.Build (lit "a") [] [];
                                           AttachedFile.Build (lit "b") [] [];
                                           AttachedFile.Build (lit "c") [] []]))%Z)
    by (simpl; lia).
  split; [exact H|]. split; [|split].
  - destruct (remove_at_index 1
                (mkState [] [AttachedFile.Build (lit "a") [] [];
                             AttachedFile.Build (lit "b") [] [];
                             AttachedFile.Build (lit "c") [] []] None))
      as (Hin & _).
    destruct (Hin H) as (Hafter & _). rewrite Hafter. reflexivity.
  - destruct (remove_at_index 3 hello) as (_ & Hout & _).
    apply Hout. simpl. lia.
  - destruct (remove_at_index (-1) hello) as (_ & Hout & _).
    apply Hout. simpl. lia.
Defined.

Lemma attach_keeps_accepted_files_witness :
  accepted (File.Build (lit "notes.MD") 12 [] (Some (lit "hi")))
  /\ ~ accepted (File.Build (lit "setup.exe") 12 [] (Some (lit "hi")))
  /\ attachedFiles
       (state_of
          (handleFileChange
             (Some [File.Build (lit "setup.exe") 12 [] (Some (lit "hi"));
                    File.Build (lit "notes.MD") 12 [] (Some (lit "hi"))])
             hello))
     = [a_txt; AttachedFile.Build (lit "notes.MD") (lit "hi") (lit "text/plain")]
  /\ attachedFiles
       (state_of
          (handleFileChange
             (Some [File.Build (lit "big.txt") (1024 * 1024 + 1) [] (Some (lit "hi"))])
             hello))
     = [a_txt].
Proof.
  assert (Hyes : accepted (File.Build (lit "notes.MD") 12 [] (Some (lit "hi")))).
  { split; [|split].
    - vm_compute. right. left. reflexivity.
    - vm_compute. discriminate.
    - discriminate. }
  assert (Hno : ~ accepted (File.Build (lit "setup.exe") 12 [] (Some (lit "hi")))).
  { intros (Hext & _). vm_compute in Hext. intuition discriminate. }
  split; [exact Hyes|]. split; [exact Hno|].
  destruct (attach_keeps_accepted_files
              [File.Build (lit "setup.exe") 12 [] (Some (lit "hi"));
               File.Build (lit "notes.MD") 12 [] (Some (lit "hi"))] hello)
    as (Hfiles & _ & _ & _ & Hacc & Hrej & _ & Hbig).
  split.
  - rewrite Hfiles. cbn [flat_map].
    destruct (Hacc _ Hyes) as (content & Hc & -> & _).
    destruct (Hrej _ Hno) as (-> & _).
    injection Hc as <-. reflexivity.
  - apply (Hbig (File.Build (lit "big.txt") (1024 * 1024 + 1) [] (Some (lit "hi")))).
    vm_compute. reflexivity.
Defined.

Lemma extension_of_dotless_name_witness :
  ~ In dot (lit "README")
  /\ fileExt (lit "README") = lit ".readme"
  /\ In (lit "md") allowedWords
  /\ attachedFiles
       (state_of
          (handleFileChange
             (Some [File.Build (lit "md") 12 [] (Some (lit "hi"))]) hello))
     = [a_txt; AttachedFile.Build (lit "md") (lit "hi") (lit "text/plain")].
Proof.
  assert (H : ~ In dot (lit "README")).
  { vm_compute. intuition discriminate. }
  assert (Hmd : In (lit "md") allowedWords) by (right; left; reflexivity).
  split; [exact H|].
  destruct (extension_of_dotless_name (lit "README") H)
    as (Hext & _ & _ & Hword & _).
  split; [exact Hext|]. split; [exact Hmd|].
  destruct (Hword (lit "md") (File.Build (lit "md") 12 [] (Some (lit "hi")))
              hello (lit "hi") Hmd eq_refl) as (_ & _ & Hattached).
  - vm_compute. discriminate.
  - reflexivity.
  - exact Hattached.
Defined.

(** ** The composer beyond the single handlers *)

(** *** What [handleSubmit] sends *)

Lemma handleSubmit_sends (s : State) (m d : jstring) :
  In (OnSendMessage m d) (effects_of (handleSubmit s)) ->
  truthy (trim (text s)) || (0 <? length (attachedFiles s))%nat = true
  /\ m = messageContent (trim (text s)) (attachedFiles s)
  /\ d = displayContent (trim (text s)) (attachedFiles s).
Proof.
  rewrite handleSubmit_run.
  destruct (truthy (trim (text s)) || (0 <? length (attachedFiles s))%nat);
    simpl.
  - intros [H | [H | []]]; [discriminate H|].
    injection H as <- <-. repeat split.
  - intros [H | []]. discriminate H.
Qed.

Lemma sent_nonempty (T : jstring) (files : list AttachedFile.t) :
  truthy T || (0 <? length files)%nat = true ->
  messageContent T files <> [] /\ displayContent T files <> [].
Proof.
  intros Hguard. destruct files as [|file rest].
  - rewrite orb_false_r in Hguard. apply truthy_true in Hguard.
    split; exact Hguard.
  - assert (Hne : file :: rest <> []) by discriminate.
    rewrite (messageContent_attached T _ Hne), (displayContent_attached T _ Hne).
    unfold lead. destruct T as [|c T]; simpl truthy; cbv iota.
    + split; [discriminate|].
      destruct rest; simpl; discriminate.
    + split; discriminate.
Qed.

Lemma trimStart_start (s : jstring) : Composer.starts_with_space (trimStart s) = false.
Proof.
  induction s as [|c s IH]; [reflexivity|].
  simpl. destruct (is_white_space c) eqn:Hc; [exact IH|].
  simpl. exact Hc.
Qed.

Lemma trimStart_suffix (s : jstring) : exists w, s = w ++ trimStart s.
Proof.
  induction s as [|c s [w IH]]; [now exists []|].
  simpl. destruct (is_white_space c).
  - exists (c :: w). simpl. now f_equal.
  - now exists [].
Qed.

Lemma trimEnd_prefix (s : jstring) : exists w, s = trimEnd s ++ w.
Proof.
  destruct (trimStart_suffix (rev s)) as [w Hw].
  exists (rev w). unfold trimEnd.
  rewrite <- rev_app_distr, <- Hw. symmetry. apply rev_involutive.
Qed.

Lemma trim_start (s : jstring) : Composer.starts_with_space (trim s) = false.
Proof.
  unfold trim.
  pose proof (trimStart_start s) as Hstart.
  destruct (trimEnd_prefix (trimStart s)) as [w Hw].
  destruct (trimEnd (trimStart s)) as [|c t]; [reflexivity|].
  rewrite Hw in Hstart. exact Hstart.
Qed.

Lemma trim_end (s : jstring) : Composer.ends_with_space (trim s) = false.
Proof.
  unfold Composer.ends_with_space, trim, trimEnd.
  rewrite rev_involutive. apply trimStart_start.
Qed.

Lemma sent_trimmed (x : jstring) (files : list AttachedFile.t) :
  Composer.starts_with_space (messageContent (trim x) files) = false
  /\ Composer.ends_with_space (messageContent (trim x) files) = false.
Proof.
  destruct files as [|file rest].
  - split; [apply trim_start | apply trim_end].
  - assert (Hne : file :: rest <> []) by discriminate.
    rewrite (messageContent_attached (trim x) _ Hne). split.
    + pose proof (trim_start x) as Hstart.
      unfold lead. destruct (trim x) as [|c T]; [reflexivity | exact Hstart].
    + unfold Composer.ends_with_space.
      rewrite !rev_app_distr. reflexivity.
Qed.

(** *** Runs of events *)

Lemma run_cons (ev : Composer.Event) (rest : list Composer.Event) (s : State) :
  state_of (Composer.run (ev :: rest) s)
  = state_of (Composer.run rest (state_of (Composer.handle ev s)))
  /\ effects_of (Composer.run (ev :: rest) s)
     = effects_of (Composer.handle ev s)
         ++ effects_of (Composer.run rest (state_of (Composer.handle ev s))).
Proof.
  simpl. unfold bind, state_of, effects_of.
  destruct (Composer.handle ev s) as [[[] s1] e1]. simpl.
  destruct (Composer.run rest s1) as [[[] s2] e2]. split; reflexivity.
Qed.

Lemma attach_log_only (files : list File.t) (s : State) :
  Forall is_log (effects_of (handleFileChange (Some files) s)).
Proof.
  destruct (handleFileChange_run files s) as (_ & _ & Hlog).
  rewrite Hlog. apply Forall_flat_map, Forall_forall.
  intros file _. apply logged_is_log.
Qed.

(** Whatever an event sends, [handleSubmit] sends from the state the event
    finds. *)
Lemma handle_sends (ev : Composer.Event) (s : State) (m d : jstring) :
  In (OnSendMessage m d) (effects_of (Composer.handle ev s)) ->
  In (OnSendMessage m d) (effects_of (handleSubmit s)).
Proof.
  destruct ev as [value h | value | | e | files | index]; simpl.
  - intros [].
  - intros [].
  - trivial.
  - rewrite handleKeyDown_run.
    destruct (eqb (key e) (lit "Enter") && negb (shiftKey e) && negb (isComposing e));
      simpl; [|intros []].
    intros [H | H]; [discriminate H | exact H].
  - destruct files as [files|]; [|intros []].
    pose proof (attach_log_only files s) as Hlog.
    intros H. rewrite Forall_forall in Hlog. apply Hlog in H. elim H.
  - intros [].
Qed.

Lemma empty_test (t : jstring) : eqb t (lit "") = negb (truthy t).
Proof. destruct t; reflexivity. Qed.

Lemma length_zero_test (A : Type) (l : list A) :
  (length l =? 0)%nat = negb (0 <? length l)%nat.
Proof. destruct l; reflexivity. Qed.

(** X1: in a composer that is not disabled, the send button is enabled
    exactly in the states in which [handleSubmit] calls [onSendMessage]. *)
Theorem send_button_matches_guard (p : ChatInput.Props) (s : State) :
  disabled p = false ->
  (isSendButtonDisabled p s = false
   <-> exists m d, In (OnSendMessage m d) (effects_of (handleSubmit s))).
Proof.
  intros Hd. unfold isSendButtonDisabled.
  rewrite Hd, empty_test, length_zero_test, <- negb_orb, orb_false_l,
    negb_false_iff.
  split.
  - intros Hguard. rewrite handleSubmit_run, Hguard.
    eexists; eexists. right. left. reflexivity.
  - intros (m & d & H). now apply handleSubmit_sends in H.
Qed.

Lemma send_button_matches_guard_witness :
  disabled (mkProps false false None) = false
  /\ isSendButtonDisabled (mkProps false false None) hello = false
  /\ exists m d, In (OnSendMessage m d) (effects_of (handleSubmit hello)).
Proof.
  assert (Hd : disabled (mkProps false false None) = false) by reflexivity.
  split; [exact Hd|]. split; [reflexivity|].
  apply (proj1 (send_button_matches_guard (mkProps false false None) hello Hd)).
  reflexivity.
Defined.

(** X2: a second [handleSubmit] right after a first one sends nothing and
    changes nothing, whatever the first one did: a message is never sent
    twice. *)
Theorem second_submit_sends_nothing (s : State) :
  effects_of (handleSubmit (state_of (handleSubmit s))) = [PreventDefault]
  /\ state_of (handleSubmit (state_of (handleSubmit s))) = state_of (handleSubmit s).
Proof.
  rewrite (handleSubmit_run s).
  destruct (truthy (trim (text s)) || (0 <? length (attachedFiles s))%nat) eqn:Hguard.
  - split; reflexivity.
  - change (state_of (tt, s, [PreventDefault])) with s.
    rewrite handleSubmit_run, Hguard. split; reflexivity.
Qed.

(** X3: over any sequence of events from any state, every call of
    [onSendMessage] carries a payload and a display that are not empty, and
    a payload that neither starts nor ends with white space. *)
Theorem run_sends_clean_payloads (events : list Composer.Event) (s : State)
    (m d : jstring) :
  In (OnSendMessage m d) (effects_of (Composer.run events s)) ->
  m <> [] /\ d <> []
  /\ Composer.starts_with_space m = false
  /\ Composer.ends_with_space m = false.
Proof.
  revert s. induction events as [|ev rest IH]; intros s H; [elim H|].
  destruct (run_cons ev rest s) as (_ & Heff). rewrite Heff in H.
  apply in_app_or in H as [H | H]; [|exact (IH _ H)].
  apply handle_sends, handleSubmit_sends in H as (Hguard & -> & ->).
  destruct (sent_nonempty _ _ Hguard) as (Hm & Hd).
  destruct (sent_trimmed (text s) (attachedFiles s)) as (Hstart & Hend).
  repeat split; assumption.
Qed.

Lemma run_sends_clean_payloads_witness :
  In (OnSendMessage (lit "Hello") (lit "Hello"))
     (effects_of
        (Composer.run [Composer.TextChange (lit "  Hello ") (Some 240%N);
                       Composer.FormSubmit]
           (Composer.initial None)))
  /\ lit "Hello" <> []
  /\ Composer.starts_with_space (lit "Hello") = false
  /\ Composer.ends_with_space (lit "Hello") = false.
Proof.
  assert (H : In (OnSendMessage (lit "Hello") (lit "Hello"))
                (effects_of
                   (Composer.run [Composer.TextChange (lit "  Hello ") (Some 240%N);
                                  Composer.FormSubmit]
                      (Composer.initial None)))).
  { right. left. reflexivity. }
  split; [exact H|].
  destruct (run_sends_clean_payloads _ _ _ _ H) as (Hm & _ & Hstart & Hend).
  split; [exact Hm|]. split; [exact Hstart | exact Hend].
Defined.

(** *** The attachments along a run *)

Lemma contribution_well_attached (file : File.t) :
  Forall Composer.well_attached (contribution file).
Proof.
  unfold contribution.
  destruct (includes allowedTypes (fileExt (File.name file))) eqn:Hext;
    [|constructor].
  destruct (File.size file <=? 1024 * 1024)%N; [|constructor].
  cbn [andb]. destruct (File.text file) as [content|]; [|constructor].
  constructor; [|constructor]. split; simpl.
  - now apply allowed_extension.
  - destruct (File.type file); simpl; discriminate.
Qed.

Lemma filter_from_Forall (A : Type) (P : A -> Prop) (p : A -> nat -> bool)
    (l : list A) :
  forall i, Forall P l -> Forall P (filter_from p i l).
Proof.
  induction l as [|x l IH]; intros i H; simpl; [constructor|].
  inversion H as [|? ? Hx Hl]; subst.
  destruct (p x i); [constructor|]; auto.
Qed.

Lemma handle_keeps_well_attached (ev : Composer.Event) (s : State) :
  Forall Composer.well_attached (attachedFiles s) ->
  Forall Composer.well_attached (attachedFiles (state_of (Composer.handle ev s))).
Proof.
  intros H.
  assert (Hsubmit : Forall Composer.well_attached
                      (attachedFiles (state_of (handleSubmit s)))).
  { rewrite handleSubmit_run.
    destruct (truthy (trim (text s)) || (0 <? length (attachedFiles s))%nat);
      [constructor | exact H]. }
  destruct ev as [value h | value | | e | files | index]; simpl.
  - exact H.
  - exact H.
  - exact Hsubmit.
  - rewrite handleKeyDown_run.
    destruct (eqb (key e) (lit "Enter") && negb (shiftKey e) && negb (isComposing e));
      [exact Hsubmit | exact H].
  - destruct files as [files|]; [|exact H].
    destruct (handleFileChange_run files s) as (-> & _).
    apply Forall_app. split; [exact H|].
    apply Forall_flat_map, Forall_forall. intros file _.
    apply contribution_well_attached.
  - apply filter_from_Forall. exact H.
Qed.

Lemma contribution_cases (file : File.t) :
  (accepted file
   /\ exists a, contribution file = [a] /\ Composer.made_from a file)
  \/ (~ accepted file /\ contribution file = []).
Proof.
  unfold contribution.
  destruct (includes allowedTypes (fileExt (File.name file))) eqn:Hext.
  2:{ right. split; [|reflexivity].
      intros H. apply accepted_test in H as (H & _). congruence. }
  destruct (File.size file <=? 1024 * 1024)%N eqn:Hsize.
  2:{ right. split; [|reflexivity].
      intros H. apply accepted_test in H as (_ & H & _). congruence. }
  cbn [andb]. destruct (File.text file) as [content|] eqn:Htext.
  2:{ right. split; [|reflexivity].
      intros H. apply accepted_test in H as (_ & _ & H). now elim H. }
  assert (Hacc : accepted file).
  { apply accepted_test. rewrite Htext. repeat split; try assumption.
    discriminate. }
  left. split; [exact Hacc|]. eexists. split; [reflexivity|].
  unfold Composer.made_from. repeat split; try assumption; apply Hacc.
Qed.

Lemma contribution_In (file : File.t) (a : AttachedFile.t) :
  In a (contribution file) -> Composer.made_from a file.
Proof.
  destruct (contribution_cases file) as [(_ & a' & -> & Hmade) | (_ & ->)].
  - intros [<- | []]. exact Hmade.
  - intros [].
Qed.

Lemma filter_from_In (A : Type) (p : A -> nat -> bool) (l : list A) (x : A) :
  forall i, In x (filter_from p i l) -> In x l.
Proof.
  induction l as [|y l IH]; intros i H; simpl in *; [exact H|].
  destruct (p y i); [destruct H as [H | H]; [now left|]|]; right; eauto.
Qed.

(** An attachment found after an event was there before, or the event is a
    selection and the attachment is made from one of its files. *)
Lemma handle_origin (ev : Composer.Event) (s : State) (a : AttachedFile.t) :
  In a (attachedFiles (state_of (Composer.handle ev s))) ->
  In a (attachedFiles s)
  \/ exists files file,
       ev = Composer.FileChange (Some files)
       /\ In file files /\ Composer.made_from a file.
Proof.
  assert (Hsubmit : In a (attachedFiles (state_of (handleSubmit s))) ->
                    In a (attachedFiles s)).
  { rewrite handleSubmit_run.
    destruct (truthy (trim (text s)) || (0 <? length (attachedFiles s))%nat);
      [intros [] | trivial]. }
  destruct ev as [value h | value | | e | files | index]; simpl.
  - now left.
  - now left.
  - intros H. left. now apply Hsubmit.
  - rewrite handleKeyDown_run.
    destruct (eqb (key e) (lit "Enter") && negb (shiftKey e) && negb (isComposing e));
      intros H; left; [now apply Hsubmit | exact H].
  - destruct files as [files|]; [|now left].
    destruct (handleFileChange_run files s) as (-> & _).
    intros H. apply in_app_or in H as [H | H]; [now left|].
    apply in_flat_map in H as (file & Hfile & H).
    right. exists files, file. split; [reflexivity|].
    split; [exact Hfile | now apply contribution_In].
  - intros H. left. exact (filter_from_In _ _ _ _ _ H).
Qed.

Lemma run_origin (events : list Composer.Event) :
  forall s a,
    In a (attachedFiles (state_of (Composer.run events s))) ->
    In a (attachedFiles s)
    \/ exists files file,
         In (Composer.FileChange (Some files)) events
         /\ In file files /\ Composer.made_from a file.
Proof.
  induction events as [|ev rest IH]; intros s a H; [now left|].
  destruct (run_cons ev rest s) as (Hstate & _). rewrite Hstate in H.
  apply IH in H as [H | (files & file & Hev & Hfile & Hmade)].
  - apply handle_origin in H as [H | (files & file & -> & Hfile & Hmade)];
      [now left|].
    right. exists files, file. split; [now left | now split].
  - right. exists files, file. split; [now right | now split].
Qed.

Lemma run_keeps_well_attached (events : list Composer.Event) :
  forall s,
    Forall Composer.well_attached (attachedFiles s) ->
    Forall Composer.well_attached (attachedFiles (state_of (Composer.run events s))).
Proof.
  induction events as [|ev rest IH]; intros s H; [exact H|].
  destruct (run_cons ev rest s) as (-> & _).
  apply IH, handle_keeps_well_attached, H.
Qed.

(** X4: every attachment the component ever holds was let in by the checks
    of [handleFileChange].  After any sequence of events on a freshly
    mounted component, each attachment in the state is made from a file of
    some selection among the events: that file has an allowed extension,
    is at most 1 MiB in size and was read, and the attachment carries its
    name, its text, and its type or text/plain.  In particular each
    attachment has a name with an allowed extension and a type that is not
    empty, and this last property is kept by every sequence of events from
    any state that has it. *)
Theorem run_keeps_attachments_well_formed (events : list Composer.Event) :
  (forall fileInput a,
     In a (attachedFiles (state_of (Composer.run events (Composer.initial fileInput)))) ->
     exists files file,
       In (Composer.FileChange (Some files)) events
       /\ In file files
       /\ In (extension (File.name file)) allowedWords
       /\ (File.size file <= 1024 * 1024)%N
       /\ File.text file = Some (AttachedFile.content a)
       /\ AttachedFile.name a = File.name file
       /\ AttachedFile.type a
          = (if truthy (File.type file) then File.type file else lit "text/plain"))
  /\ (forall fileInput,
        Forall Composer.well_attached
          (attachedFiles (state_of (Composer.run events (Composer.initial fileInput)))))
  /\ (forall s,
        Forall Composer.well_attached (attachedFiles s) ->
        Forall Composer.well_attached
          (attachedFiles (state_of (Composer.run events s)))).
Proof.
  split; [|split].
  - intros fileInput a H.
    apply run_origin in H as [[] | (files & file & Hev & Hfile & Hmade)].
    destruct Hmade as ((Hext & Hsize & _) & Htext & Hname & Htype).
    exists files, file. repeat split; assumption.
  - intros fileInput. apply run_keeps_well_attached. constructor.
  - apply run_keeps_well_attached.
Qed.

Lemma run_keeps_attachments_well_formed_witness :
  In (AttachedFile.Build (lit "notes.MD") (lit "hi") (lit "text/plain"))
     (attachedFiles
        (state_of
           (Composer.run
              [Composer.FileChange
                 (Some [File.Build (lit "setup.exe") 12 [] (Some (lit "hi"));
                        File.Build (lit "notes.MD") 12 [] (Some (lit "hi"))]);
               Composer.RemoveFile 5]
              (Composer.initial None))))
  /\ exists files file,
       In file files
       /\ (File.size file <= 1024 * 1024)%N
       /\ File.name file = lit "notes.MD"
       /\ File.text file = Some (lit "hi").
Proof.
  assert (H : In (AttachedFile.Build (lit "notes.MD") (lit "hi") (lit "text/plain"))
                (attachedFiles
                   (state_of
                      (Composer.run
                         [Composer.FileChange
                            (Some [File.Build (lit "setup.exe") 12 [] (Some (lit "hi"));
                                   File.Build (lit "notes.MD") 12 [] (Some (lit "hi"))]);
                          Composer.RemoveFile 5]
                         (Composer.initial None)))))
    by (left; reflexivity).
  split; [exact H|].
  destruct (run_keeps_attachments_well_formed
              [Composer.FileChange
                 (Some [File.Build (lit "setup.exe") 12 [] (Some (lit "hi"));
                        File.Build (lit "notes.MD") 12 [] (Some (lit "hi"))]);
               Composer.RemoveFile 5]) as (Horigin & _).
  destruct (Horigin None _ H)
    as (files & file & _ & Hfile & _ & Hsize & Htext & Hname & _).
  exists files, file. split; [exact Hfile|]. split; [exact Hsize|].
  split; [symmetry; exact Hname | exact Htext].
Defined.

(** X5: the payload does not determine the attachments.  One file whose
    content carries a closing tag, a newline and an opening tag of its own
    yields the very payload of two files, so the receiver of the payload
    cannot tell file boundaries from file content. *)
Theorem payload_does_not_determine_attachments
    (txt a b c1 c2 t1 t2 t3 : jstring) (input : option jstring) :
  exists m d1 d2,
    effects_of
      (handleSubmit
         (mkState txt
            [AttachedFile.Build a (c1 ++ blockClose ++ nl ++ blockOpen b ++ c2) t1]
            input))
    = [PreventDefault; OnSendMessage m d1]
    /\ effects_of
         (handleSubmit
            (mkState txt [AttachedFile.Build a c1 t2; AttachedFile.Build b c2 t3] input))
       = [PreventDefault; OnSendMessage m d2].
Proof.
  eexists; eexists; eexists. split.
  - apply handleSubmit_attached. discriminate.
  - rewrite handleSubmit_attached by discriminate.
    cbn [attachedFiles text map join]. rewrite !fileBlock_shape.
    cbn [AttachedFile.name AttachedFile.content].
    rewrite <- !app_assoc. reflexivity.
Qed.

Lemma contribution_pieces (files : list File.t) :
  Forall2
    (fun file piece =>
       (accepted file /\ exists a, piece = [a] /\ Composer.made_from a file)
       \/ (~ accepted file /\ piece = []))
    files (map contribution files)
  /\ concat (map contribution files) = flat_map contribution files.
Proof.
  split; [|symmetry; apply flat_map_concat_map].
  induction files as [|file rest IH]; simpl; constructor;
    [apply contribution_cases | exact IH].
Qed.

(** X6: [handleFileChange] never alters the attachments already there.
    What it appends is, file by file in the order of the selection, one
    entry for a file that passes the extension and size tests and is read
    (the entry has the name and the full text of that very file), and
    nothing for any other file; so it adds at most one entry per selected
    file, and at most as many entries as files. *)
Theorem attach_appends_selected_files (files : list File.t) (s : State) :
  exists pieces,
    attachedFiles (state_of (handleFileChange (Some files) s))
    = attachedFiles s ++ concat pieces
    /\ Forall2
         (fun file piece =>
            (accepted file
             /\ exists a,
                  piece = [a]
                  /\ AttachedFile.name a = File.name file
                  /\ File.text file = Some (AttachedFile.content a)
                  /\ (File.size file <= 1024 * 1024)%N
                  /\ AttachedFile.type a
                     = (if truthy (File.type file) then File.type file
                        else lit "text/plain"))
            \/ (~ accepted file /\ piece = []))
         files pieces
    /\ (length (concat pieces) <= length files)%nat
    /\ (forall a, In a (concat pieces) ->
          exists file,
            In file files
            /\ AttachedFile.name a = File.name file
            /\ File.text file = Some (AttachedFile.content a)
            /\ (File.size file <= 1024 * 1024)%N).
Proof.
  exists (map contribution files).
  destruct (contribution_pieces files) as (Hpieces & Hconcat).
  rewrite Hconcat.
  split; [exact (proj1 (handleFileChange_run files s))|]. split; [|split].
  - clear Hconcat. induction Hpieces as [|file piece rest pieces Hp _ IH];
      constructor; [|exact IH].
    destruct Hp as [(Hacc & a & -> & Hmade) | (Hrej & ->)]; [left | now right].
    split; [exact Hacc|]. exists a. split; [reflexivity|].
    destruct Hmade as ((_ & Hsize & _) & Htext & Hname & Htype).
    repeat split; assumption.
  - clear Hpieces Hconcat. induction files as [|file rest IH]; [constructor|].
    cbn [flat_map]. rewrite length_app. simpl length.
    assert (length (contribution file) <= 1)%nat; [|lia].
    destruct (contribution_cases file) as [(_ & a & -> & _) | (_ & ->)];
      simpl; lia.
  - intros a Ha. apply in_flat_map in Ha as (file & Hfile & Ha).
    exists file. split; [exact Hfile|].
    apply contribution_In in Ha as ((_ & Hsize & _) & Htext & Hname & _).
    repeat split; assumption.
Qed.

(** X7: the replay button is never rendered disabled, and whenever it is
    rendered [handleReplay] calls [onReplay], if supplied, with the session
    identifier; whenever the send button is rendered instead,
    [handleReplay] calls nothing. *)
Theorem replay_button_never_disabled (p : ChatInput.Props) (s : State) :
  (forall isDisabled,
     Composer.actionButton p s = Composer.ReplayButton isDisabled ->
     isDisabled = false
     /\ exists sessionId,
          historicalSessionId p = Some sessionId
          /\ Composer.handleReplay p true = Some sessionId)
  /\ (forall isDisabled,
        Composer.actionButton p s = Composer.SendButton isDisabled ->
        isDisabled = isSendButtonDisabled p s
        /\ forall onReplay, Composer.handleReplay p onReplay = None).
Proof.
  unfold Composer.actionButton, Composer.handleReplay.
  destruct (showStopButton p); [split; intros ? H; discriminate H|].
  destruct (historicalSessionId p) as [sessionId|].
  - destruct (truthy sessionId) eqn:Hid; split; intros isDisabled H;
      try discriminate H; injection H as <-.
    + split; [reflexivity|]. now exists sessionId.
    + split; [reflexivity|]. intros onReplay. reflexivity.
  - split; intros isDisabled H; [discriminate H|].
    injection H as <-. split; reflexivity.
Qed.

Lemma replay_button_never_disabled_witness :
  Composer.actionButton (mkProps false false (Some (lit "s1"))) hello
  = Composer.ReplayButton false
  /\ Composer.handleReplay (mkProps false false (Some (lit "s1"))) true
     = Some (lit "s1").
Proof.
  destruct (replay_button_never_disabled (mkProps false false (Some (lit "s1"))) hello)
    as (Hreplay & _).
  destruct (Hreplay false eq_refl) as (_ & sessionId & Hid & Hcall).
  split; [reflexivity|].
  injection Hid as <-. exact Hcall.
Defined.

(** ** Objects *)

From Stdlib Require Import Permutation.

Lemma has_In (k : jstring) (o : JSObject.t) :
  JSObject.has k o = true <-> In k (JSObject.keys o).
Proof.
  unfold JSObject.has, JSObject.keys. rewrite existsb_exists, in_map_iff. split.
  - intros (p & Hp & Heq). apply eqb_eq in Heq. now exists p.
  - intros (p & Heq & Hp). exists p. split; [exact Hp|]. now apply eqb_eq.
Qed.

Lemma has_not_In (k : jstring) (o : JSObject.t) :
  JSObject.has k o = false <-> ~ In k (JSObject.keys o).
Proof.
  rewrite <- has_In. destruct (JSObject.has k o); split; congruence.
Qed.

Lemma eqb_neq (s t : jstring) : eqb s t = false <-> s <> t.
Proof.
  rewrite <- eqb_eq. destruct (eqb s t); split; congruence.
Qed.

Lemma keys_update (k v : jstring) (o : JSObject.t) :
  JSObject.keys (JSObject.update k v o) = JSObject.keys o.
Proof.
  induction o as [|[k' v'] o IH]; [reflexivity|].
  simpl. destruct (eqb k' k); simpl; [reflexivity|]. now f_equal.
Qed.

Lemma insert_index_splits (i : N) (k v : jstring) (o : JSObject.t) :
  exists o1 o2, o = o1 ++ o2 /\ JSObject.insert_index i k v o = o1 ++ (k, v) :: o2.
Proof.
  induction o as [|[k' v'] o (o1 & o2 & Ho & Hins)].
  - now exists [], [].
  - simpl. destruct (JSObject.array_index k') as [j|].
    + destruct (i <? j)%N.
      * now exists [], ((k', v') :: o).
      * exists ((k', v') :: o1), o2. simpl. now rewrite <- Ho, Hins.
    + now exists [], ((k', v') :: o).
Qed.

(** Defining a key the object lacks puts it at some place among the others,
    which keep their order. *)
Lemma set_fresh_splits (k v : jstring) (o : JSObject.t) :
  JSObject.has k o = false ->
  exists o1 o2, o = o1 ++ o2 /\ JSObject.set k v o = o1 ++ (k, v) :: o2.
Proof.
  intros Hk. unfold JSObject.set. rewrite Hk.
  destruct (JSObject.array_index k) as [i|].
  - apply insert_index_splits.
  - exists o, []. now rewrite app_nil_r.
Qed.

Lemma keys_set_present (k v : jstring) (o : JSObject.t) :
  JSObject.has k o = true -> JSObject.keys (JSObject.set k v o) = JSObject.keys o.
Proof.
  intros Hk. unfold JSObject.set. rewrite Hk. apply keys_update.
Qed.

Lemma keys_set_In (k v k' : jstring) (o : JSObject.t) :
  In k' (JSObject.keys (JSObject.set k v o)) <-> k' = k \/ In k' (JSObject.keys o).
Proof.
  destruct (JSObject.has k o) eqn:Hk.
  - rewrite (keys_set_present k v o Hk). apply has_In in Hk.
    split; [now right|]. intros [-> | H]; assumption.
  - destruct (set_fresh_splits k v o Hk) as (o1 & o2 & -> & ->).
    unfold JSObject.keys. rewrite !map_app, !in_app_iff. simpl.
    intuition congruence.
Qed.

Lemma keys_set_NoDup (k v : jstring) (o : JSObject.t) :
  NoDup (JSObject.keys o) -> NoDup (JSObject.keys (JSObject.set k v o)).
Proof.
  intros Hnd. destruct (JSObject.has k o) eqn:Hk.
  - now rewrite (keys_set_present k v o Hk).
  - destruct (set_fresh_splits k v o Hk) as (o1 & o2 & Ho & ->).
    apply has_not_In in Hk. subst o.
    unfold JSObject.keys in *. rewrite map_app in *. simpl.
    apply (Permutation_NoDup (Permutation_middle _ _ _)).
    now constructor.
Qed.

Lemma get_update (k v : jstring) (o : JSObject.t) :
  JSObject.has k o = true ->
  JSObject.get k (JSObject.update k v o) = Some v
  /\ forall k', k' <> k ->
       JSObject.get k' (JSObject.update k v o) = JSObject.get k' o.
Proof.
  induction o as [|[k0 v0] o IH]; simpl; [discriminate|].
  destruct (eqb k0 k) eqn:Hk0; simpl.
  - intros _. rewrite Hk0. split; [reflexivity|].
    intros k' Hk'. apply eqb_eq in Hk0. subst k0.
    apply not_eq_sym, eqb_neq in Hk'. now rewrite Hk'.
  - intros Hk. rewrite Hk0. destruct (IH Hk) as (Hsame & Hother).
    split; [exact Hsame|]. intros k' Hk'. rewrite (Hother k' Hk'). reflexivity.
Qed.

Lemma get_absent (k : jstring) (o : JSObject.t) :
  ~ In k (JSObject.keys o) -> JSObject.get k o = None.
Proof.
  induction o as [|[k0 v0] o IH]; simpl; [reflexivity|].
  intros Hk. destruct (eqb k0 k) eqn:Hk0.
  - apply eqb_eq in Hk0. elim Hk. now left.
  - apply IH. intros H. apply Hk. now right.
Qed.

Lemma get_middle (k v : jstring) (o1 o2 : JSObject.t) :
  ~ In k (JSObject.keys o1) ->
  JSObject.get k (o1 ++ (k, v) :: o2) = Some v
  /\ forall k', k' <> k ->
       JSObject.get k' (o1 ++ (k, v) :: o2) = JSObject.get k' (o1 ++ o2).
Proof.
  induction o1 as [|[k0 v0] o1 IH]; simpl; intros Hk.
  - rewrite eqb_refl. split; [reflexivity|].
    intros k' Hk'. apply not_eq_sym, eqb_neq in Hk'. now rewrite Hk'.
  - assert (Hk0 : eqb k0 k = false).
    { apply eqb_neq. intros ->. apply Hk. now left. }
    rewrite Hk0. destruct IH as (Hsame & Hother).
    { intros H. apply Hk. now right. }
    split; [exact Hsame|]. intros k' Hk'. now rewrite (Hother k' Hk').
Qed.

(** Reading back a key just defined gives the value defined, and every
    other key reads as before. *)
Lemma set_then_get (k v : jstring) (o : JSObject.t) :
  JSObject.get k (JSObject.set k v o) = Some v
  /\ (forall k', k' <> k ->
        JSObject.get k' (JSObject.set k v o) = JSObject.get k' o)
  /\ (forall k', In k' (JSObject.keys (JSObject.set k v o))
                 <-> k' = k \/ In k' (JSObject.keys o))
  /\ (length (JSObject.set k v o)
      = if JSObject.has k o then length o else S (length o)).
Proof.
  split; [|split; [|split; [intros k'; apply keys_set_In|]]].
  - destruct (JSObject.has k o) eqn:Hk.
    + unfold JSObject.set. rewrite Hk. now apply get_update.
    + destruct (set_fresh_splits k v o Hk) as (o1 & o2 & -> & ->).
      apply get_middle. apply has_not_In in Hk.
      unfold JSObject.keys in *. rewrite map_app, in_app_iff in Hk. tauto.
  - destruct (JSObject.has k o) eqn:Hk.
    + unfold JSObject.set. rewrite Hk. now apply get_update.
    + destruct (set_fresh_splits k v o Hk) as (o1 & o2 & -> & ->).
      apply get_middle. apply has_not_In in Hk.
      unfold JSObject.keys in *. rewrite map_app, in_app_iff in Hk. tauto.
  - destruct (JSObject.has k o) eqn:Hk.
    + unfold JSObject.set. rewrite Hk.
      rewrite <- (length_map fst (JSObject.update k v o)), <- (length_map fst o).
      f_equal. apply keys_update.
    + destruct (set_fresh_splits k v o Hk) as (o1 & o2 & -> & ->).
      rewrite !length_app. simpl. lia.
Qed.

(** ** The profile form *)

(** X8: [handleFieldChange] changes one field of the form data and nothing
    else: the field reads back as the value typed, every other key reads as
    before, no key is lost, the only key that can be new is the field
    itself, and the custom fields, the label input and the saved flag stay
    as they were. *)
Theorem field_change_sets_one_field (field value : jstring)
    (s : ProfileSettings.State) :
  let s' := ProfileSettings.handleFieldChange field value s in
  JSObject.get field (ProfileSettings.formData s') = Some value
  /\ (forall k, k <> field ->
        JSObject.get k (ProfileSettings.formData s')
        = JSObject.get k (ProfileSettings.formData s))
  /\ (forall k, In k (JSObject.keys (ProfileSettings.formData s'))
                <-> k = field \/ In k (JSObject.keys (ProfileSettings.formData s)))
  /\ ProfileSettings.customFields s' = ProfileSettings.customFields s
  /\ ProfileSettings.newFieldLabel s' = ProfileSettings.newFieldLabel s
  /\ ProfileSettings.saved s' = ProfileSettings.saved s.
Proof.
  cbv zeta. unfold ProfileSettings.handleFieldChange. simpl.
  destruct (set_then_get field value (ProfileSettings.formData s))
    as (Hsame & Hother & Hkeys & _).
  repeat split; try assumption; apply Hkeys.
Qed.

(** *** [labelToKey] *)

Lemma underscore_no_key_char :
  ProfileSettings.is_key_char ProfileSettings.underscore = false.
Proof. reflexivity. Qed.

Lemma lower_key_unit (c : code_unit) :
  ProfileSettings.key_unit c -> lower_unit c = [c].
Proof.
  unfold ProfileSettings.key_unit, ProfileSettings.is_key_char, lower_unit.
  intros [H | ->]; [|reflexivity].
  rewrite orb_true_iff, !andb_true_iff, !N.leb_le in H.
  assert (H1 : ((65 <=? c) && (c <=? 90))%N = false).
  { apply andb_false_iff. rewrite !N.leb_gt. lia. }
  assert (H2 : (c =? 8490)%N = false) by (apply N.eqb_neq; lia).
  assert (H3 : (c =? 304)%N = false) by (apply N.eqb_neq; lia).
  now rewrite H1, H2, H3.
Qed.

Lemma toLowerCase_key (s : jstring) :
  Forall ProfileSettings.key_unit s -> toLowerCase s = s.
Proof.
  induction 1 as [|c s Hc _ IH]; [reflexivity|].
  unfold toLowerCase in *. simpl. rewrite (lower_key_unit c Hc), IH. reflexivity.
Qed.

Lemma replace_runs_units (s : jstring) :
  forall in_run, Forall ProfileSettings.key_unit (ProfileSettings.replace_runs in_run s).
Proof.
  induction s as [|c s IH]; intros in_run; simpl; [constructor|].
  destruct (ProfileSettings.is_key_char c) eqn:Hc.
  - constructor; [now left | apply IH].
  - destruct in_run; [apply IH|]. constructor; [now right | apply IH].
Qed.

Section Pairs.

(** Two code units [u] in a row. *)
Variable u : code_unit.

Lemma pair_cons (c : code_unit) (s : jstring) :
  occurs_in [u; u] (c :: s)
  <-> (c = u /\ exists s', s = u :: s') \/ occurs_in [u; u] s.
Proof.
  unfold occurs_in. split.
  - intros ([|c' before] & after & H); simpl in H.
    + injection H as -> ->. left. split; [reflexivity|]. now exists after.
    + injection H as -> ->. right. now exists before, after.
  - intros [(-> & s' & ->) | (before & after & ->)].
    + now exists [], s'.
    + now exists (c :: before), after.
Qed.

Lemma pair_nil : ~ occurs_in [u; u] [].
Proof. intros ([|c before] & after & H); discriminate H. Qed.

Lemma pair_inside (w1 s w2 : jstring) :
  occurs_in [u; u] s -> occurs_in [u; u] (w1 ++ s ++ w2).
Proof.
  intros (before & after & ->).
  exists (w1 ++ before), (after ++ w2). now rewrite <- !app_assoc.
Qed.

End Pairs.

Lemma replace_runs_single (s : jstring) :
  forall in_run,
    ~ occurs_in [ProfileSettings.underscore; ProfileSettings.underscore]
        (ProfileSettings.replace_runs in_run s)
    /\ (in_run = true ->
        forall s', ProfileSettings.replace_runs in_run s
                   <> ProfileSettings.underscore :: s').
Proof.
  induction s as [|c s IH]; intros in_run; simpl.
  - split; [apply pair_nil | discriminate].
  - destruct (ProfileSettings.is_key_char c) eqn:Hc.
    + assert (Hcu : c <> ProfileSettings.underscore).
      { intros ->. now rewrite underscore_no_key_char in Hc. }
      split.
      * rewrite pair_cons. intros [(H & _) | H]; [contradiction|].
        now apply (IH false).
      * intros _ s' H. injection H as H _. contradiction.
    + destruct in_run; [apply IH|]. split; [|discriminate].
      rewrite pair_cons. intros [(_ & s' & H) | H].
      * now apply (proj2 (IH true) eq_refl s').
      * now apply (IH true).
Qed.

Lemma drop_underscores_suffix (s : jstring) :
  exists w, s = w ++ ProfileSettings.drop_underscores s.
Proof.
  induction s as [|c s [w IH]]; [now exists []|].
  simpl. destruct (c =? ProfileSettings.underscore)%N.
  - exists (c :: w). simpl. now f_equal.
  - now exists [].
Qed.

Lemma drop_underscores_start (s s' : jstring) :
  ProfileSettings.drop_underscores s <> ProfileSettings.underscore :: s'.
Proof.
  induction s as [|c s IH]; simpl; [discriminate|].
  destruct (N.eqb_spec c ProfileSettings.underscore) as [_|Hc]; [exact IH|].
  intros H. injection H as H _. contradiction.
Qed.

Lemma drop_underscores_fixed (s : jstring) :
  (forall s', s <> ProfileSettings.underscore :: s') ->
  ProfileSettings.drop_underscores s = s.
Proof.
  destruct s as [|c s]; intros H; [reflexivity|].
  simpl. destruct (N.eqb_spec c ProfileSettings.underscore) as [->|_]; [|reflexivity].
  now elim (H s).
Qed.

(** What [strip_underscores] keeps is a run of the string it is given. *)
Lemma strip_underscores_inside (s : jstring) :
  exists w1 w2, s = w1 ++ ProfileSettings.strip_underscores s ++ w2.
Proof.
  destruct (drop_underscores_suffix s) as [w1 H1].
  destruct (drop_underscores_suffix (rev (ProfileSettings.drop_underscores s)))
    as [w2 H2].
  exists w1, (rev w2). unfold ProfileSettings.strip_underscores.
  rewrite <- rev_app_distr, <- H2, rev_involutive. exact H1.
Qed.

Lemma strip_underscores_ends (s s' : jstring) :
  ProfileSettings.strip_underscores s <> ProfileSettings.underscore :: s'
  /\ rev (ProfileSettings.strip_underscores s) <> ProfileSettings.underscore :: s'.
Proof.
  split.
  - intros H.
    destruct (drop_underscores_suffix (rev (ProfileSettings.drop_underscores s)))
      as [w2 H2].
    apply (f_equal (@rev code_unit)) in H2.
    rewrite rev_involutive, rev_app_distr in H2.
    fold (ProfileSettings.strip_underscores s) in H2. rewrite H in H2.
    exact (drop_underscores_start s _ H2).
  - unfold ProfileSettings.strip_underscores. rewrite rev_involutive.
    apply drop_underscores_start.
Qed.

Lemma replace_runs_fixed (s : jstring) :
  forall in_run,
    Forall ProfileSettings.key_unit s ->
    ~ occurs_in [ProfileSettings.underscore; ProfileSettings.underscore] s ->
    (in_run = true -> forall s', s <> ProfileSettings.underscore :: s') ->
    ProfileSettings.replace_runs in_run s = s.
Proof.
  induction s as [|c s IH]; intros in_run Hunits Hpair Hstart; [reflexivity|].
  inversion Hunits as [|? ? Hc Hs]; subst.
  rewrite pair_cons in Hpair. simpl.
  destruct (ProfileSettings.is_key_char c) eqn:Hkc.
  - f_equal. apply IH; [exact Hs | tauto | discriminate].
  - destruct Hc as [Hc | ->]; [congruence|].
    destruct in_run; [now elim (Hstart eq_refl s)|].
    f_equal. apply IH; [exact Hs | tauto|].
    intros _ s' ->. apply Hpair. left. split; [reflexivity|]. now exists s'.
Qed.

Lemma labelToKey_shape_parts (label : jstring) :
  Forall ProfileSettings.key_unit (ProfileSettings.labelToKey label)
  /\ (forall s', ProfileSettings.labelToKey label <> ProfileSettings.underscore :: s')
  /\ (forall s', rev (ProfileSettings.labelToKey label)
                 <> ProfileSettings.underscore :: s')
  /\ ~ occurs_in [ProfileSettings.underscore; ProfileSettings.underscore]
         (ProfileSettings.labelToKey label).
Proof.
  unfold ProfileSettings.labelToKey.
  destruct (strip_underscores_inside
              (ProfileSettings.replace_runs false (toLowerCase label)))
    as (w1 & w2 & Hin).
  split; [|split; [|split]].
  - pose proof (replace_runs_units (toLowerCase label) false) as H.
    rewrite Hin in H. apply Forall_app in H as (_ & H).
    now apply Forall_app in H as (H & _).
  - intros s'. apply strip_underscores_ends.
  - intros s'. apply strip_underscores_ends.
  - intros H. apply (pair_inside _ w1 _ w2) in H. rewrite <- Hin in H.
    now apply (replace_runs_single (toLowerCase label) false).
Qed.

(** X9: a key made by [labelToKey] consists of the letters a to z, the
    digits and underscores, neither starts nor ends with an underscore, and
    has no two underscores in a row; the label Passport Number gives
    passport_number, as the comment in the source says. *)
Theorem labelToKey_shape (label : jstring) :
  Forall ProfileSettings.key_unit (ProfileSettings.labelToKey label)
  /\ (forall s', ProfileSettings.labelToKey label <> ProfileSettings.underscore :: s')
  /\ (forall s', rev (ProfileSettings.labelToKey label)
                 <> ProfileSettings.underscore :: s')
  /\ ~ occurs_in [ProfileSettings.underscore; ProfileSettings.underscore]
         (ProfileSettings.labelToKey label)
  /\ ProfileSettings.labelToKey (lit "Passport Number") = lit "passport_number".
Proof.
  destruct (labelToKey_shape_parts label) as (Hunits & Hstart & Hend & Hpair).
  repeat split; try assumption.
Qed.

(** X10: [labelToKey] is idempotent: a key is its own key, so a field
    whose label is typed as the key of an existing field collides with
    it. *)
Theorem labelToKey_idempotent (label : jstring) :
  ProfileSettings.labelToKey (ProfileSettings.labelToKey label)
  = ProfileSettings.labelToKey label.
Proof.
  destruct (labelToKey_shape_parts label) as (Hunits & Hstart & Hend & Hpair).
  unfold ProfileSettings.labelToKey at 1.
  rewrite (toLowerCase_key _ Hunits).
  rewrite (replace_runs_fixed _ false Hunits Hpair) by discriminate.
  unfold ProfileSettings.strip_underscores.
  rewrite (drop_underscores_fixed _ Hstart).
  rewrite (drop_underscores_fixed _ Hend). apply rev_involutive.
Qed.

(** *** Fields and form data *)

Lemma find_key_In (k : jstring) (fields : list ProfileSettings.CustomField) :
  ProfileSettings.find_key k fields = true <-> In k (map ProfileSettings.key fields).
Proof.
  unfold ProfileSettings.find_key. rewrite existsb_exists, in_map_iff. split.
  - intros (f & Hf & Heq). apply eqb_eq in Heq. now exists f.
  - intros (f & Heq & Hf). exists f. split; [exact Hf|]. now apply eqb_eq.
Qed.

Lemma find_key_not_In (k : jstring) (fields : list ProfileSettings.CustomField) :
  ProfileSettings.find_key k fields = false <-> ~ In k (map ProfileSettings.key fields).
Proof.
  rewrite <- find_key_In. destruct (ProfileSettings.find_key k fields);
    split; congruence.
Qed.

Lemma keys_filter_fields (k : jstring) (fields : list ProfileSettings.CustomField) :
  map ProfileSettings.key
    (filter (fun field => negb (eqb (ProfileSettings.key field) k)) fields)
  = filter (fun k' => negb (eqb k' k)) (map ProfileSettings.key fields).
Proof.
  induction fields as [|f fields IH]; [reflexivity|].
  simpl. destruct (eqb (ProfileSettings.key f) k); simpl; now rewrite IH.
Qed.

Lemma keys_delete (k : jstring) (o : JSObject.t) :
  JSObject.keys (JSObject.delete k o)
  = filter (fun k' => negb (eqb k' k)) (JSObject.keys o).
Proof.
  induction o as [|[k0 v0] o IH]; [reflexivity|].
  unfold JSObject.delete, JSObject.keys in *. simpl.
  destruct (eqb k0 k); simpl; now rewrite IH.
Qed.

Lemma filter_other_In (k k' : jstring) (l : list jstring) :
  In k' (filter (fun x => negb (eqb x k)) l) <-> In k' l /\ k' <> k.
Proof.
  rewrite filter_In, negb_true_iff, eqb_neq. reflexivity.
Qed.

Lemma get_delete (k : jstring) (o : JSObject.t) :
  JSObject.get k (JSObject.delete k o) = None
  /\ forall k', k' <> k ->
       JSObject.get k' (JSObject.delete k o) = JSObject.get k' o.
Proof.
  split.
  - apply get_absent. rewrite keys_delete, filter_other_In. tauto.
  - intros k' Hk'. induction o as [|[k0 v0] o IH]; [reflexivity|].
    unfold JSObject.delete in *. simpl.
    destruct (eqb k0 k) eqn:Hk0; simpl.
    + apply eqb_eq in Hk0. subst k0.
      apply not_eq_sym, eqb_neq in Hk'. now rewrite Hk'.
    + now rewrite IH.
Qed.

Lemma filter_all (A : Type) (p : A -> bool) (l : list A) :
  (forall x, In x l -> p x = true) -> filter p l = l.
Proof.
  induction l as [|x l IH]; intros H; [reflexivity|].
  simpl. rewrite (H x (or_introl eq_refl)). f_equal.
  apply IH. intros y Hy. apply H. now right.
Qed.

Lemma delete_absent (k : jstring) (o : JSObject.t) :
  ~ In k (JSObject.keys o) -> JSObject.delete k o = o.
Proof.
  intros Hk. apply filter_all. intros [k0 v0] Hin.
  apply negb_true_iff, eqb_neq. intros Heq. simpl in Heq. subst k0.
  apply Hk. unfold JSObject.keys. now apply (in_map fst) in Hin.
Qed.

Lemma delete_set_fresh (k v : jstring) (o : JSObject.t) :
  ~ In k (JSObject.keys o) -> JSObject.delete k (JSObject.set k v o) = o.
Proof.
  intros Hk. pose proof (proj2 (has_not_In k o) Hk) as Hhas.
  destruct (set_fresh_splits k v o Hhas) as (o1 & o2 & Ho & ->).
  subst o.
  transitivity (JSObject.delete k (o1 ++ o2)); [|exact (delete_absent _ _ Hk)].
  unfold JSObject.delete. rewrite !filter_app. simpl.
  now rewrite eqb_refl.
Qed.

(** The handlers, one by one, keep the form consistent. *)
Lemma loadProfile_consistent (profileData : JSObject.t) (s : ProfileSettings.State) :
  NoDup (JSObject.keys profileData) ->
  ProfileSettings.consistent (ProfileSettings.loadProfile profileData s).
Proof.
  intros Hnd. unfold ProfileSettings.consistent, ProfileSettings.shown_keys,
    ProfileSettings.loadProfile.
  cbn [ProfileSettings.customFields ProfileSettings.formData].
  rewrite map_map. cbn [ProfileSettings.key]. rewrite map_id.
  split; [now apply NoDup_filter|]. split; [|split; [exact Hnd|]].
  - intros k Hk. apply filter_In in Hk as (_ & Hk).
    apply negb_true_iff in Hk. now apply find_key_not_In.
  - intros k Hk. apply in_or_app.
    destruct (ProfileSettings.find_key k ProfileSettings.predefinedFields) eqn:Hp.
    + left. now apply find_key_In.
    + right. apply filter_In. split; [exact Hk|]. now rewrite Hp.
Qed.

Lemma handleFieldChange_consistent (field value : jstring) (s : ProfileSettings.State) :
  In field (ProfileSettings.shown_keys s) ->
  ProfileSettings.consistent s ->
  ProfileSettings.consistent (ProfileSettings.handleFieldChange field value s).
Proof.
  intros Hfield (Hnd & Hpre & Hdata & Hshown).
  unfold ProfileSettings.consistent, ProfileSettings.shown_keys in *.
  cbn [ProfileSettings.handleFieldChange ProfileSettings.customFields
       ProfileSettings.formData].
  split; [exact Hnd|]. split; [exact Hpre|].
  split; [now apply keys_set_NoDup|].
  intros k Hk. apply keys_set_In in Hk as [-> | Hk]; auto.
Qed.

Lemma addCustomField_consistent (s : ProfileSettings.State) :
  ProfileSettings.consistent s ->
  ProfileSettings.consistent (fst (ProfileSettings.addCustomField s)).
Proof.
  intros Hs. unfold ProfileSettings.addCustomField.
  destruct (truthy (trim (ProfileSettings.newFieldLabel s))); [|exact Hs].
  destruct (ProfileSettings.find_key _ ProfileSettings.predefinedFields) eqn:Hp;
    [exact Hs|].
  destruct (ProfileSettings.find_key _ (ProfileSettings.customFields s)) eqn:Hc;
    [exact Hs|].
  apply find_key_not_In in Hp, Hc.
  destruct Hs as (Hnd & Hpre & Hdata & Hshown).
  unfold ProfileSettings.consistent, ProfileSettings.shown_keys in *.
  cbn [orb fst ProfileSettings.customFields ProfileSettings.formData].
  rewrite map_app. cbn [map ProfileSettings.key].
  split; [|split; [|split]].
  - apply NoDup_app; [exact Hnd | repeat constructor; now intros [] |].
    intros k Hk [<- | []]. contradiction.
  - intros k Hk. apply in_app_or in Hk as [Hk | [<- | []]]; auto.
  - now apply keys_set_NoDup.
  - intros k Hk. rewrite !in_app_iff. apply keys_set_In in Hk as [-> | Hk].
    + right. right. now left.
    + apply Hshown, in_app_or in Hk. tauto.
Qed.

Lemma removeCustomField_consistent (k : jstring) (s : ProfileSettings.State) :
  ProfileSettings.consistent s ->
  ProfileSettings.consistent (ProfileSettings.removeCustomField k s).
Proof.
  intros (Hnd & Hpre & Hdata & Hshown).
  unfold ProfileSettings.consistent, ProfileSettings.shown_keys in *.
  cbn [ProfileSettings.removeCustomField ProfileSettings.customFields
       ProfileSettings.formData].
  rewrite keys_filter_fields, keys_delete.
  split; [now apply NoDup_filter|]. split; [|split; [now apply NoDup_filter|]].
  - intros k' Hk'. apply filter_other_In in Hk' as (Hk' & _). auto.
  - intros k' Hk'. apply filter_other_In in Hk' as (Hk' & Hne).
    apply Hshown, in_app_or in Hk'. apply in_or_app.
    destruct Hk' as [Hk' | Hk']; [now left|].
    right. now apply filter_other_In.
Qed.

Lemma empty_form_consistent (label : jstring) (saved : bool) :
  ProfileSettings.consistent (ProfileSettings.mkState [] [] label saved).
Proof.
  unfold ProfileSettings.consistent. simpl.
  split; [constructor|]. split; [intros k []|].
  split; [constructor | intros k []].
Qed.

Lemma handle_consistent (ev : ProfileSettings.Event) (s : ProfileSettings.State) :
  ProfileSettings.offered s ev ->
  ProfileSettings.consistent s ->
  ProfileSettings.consistent (fst (ProfileSettings.handle ev s)).
Proof.
  intros Hev Hs.
  destruct ev as [profileData | field value | value | pressed | | k
                 | stored | | cleared]; simpl in *.
  - now apply loadProfile_consistent.
  - now apply handleFieldChange_consistent.
  - exact Hs.
  - destruct (eqb pressed (lit "Enter")); [|exact Hs].
    now apply addCustomField_consistent.
  - now apply addCustomField_consistent.
  - now apply removeCustomField_consistent.
  - unfold ProfileSettings.handleSave. destruct stored; exact Hs.
  - exact Hs.
  - unfold ProfileSettings.handleClear. destruct cleared; [|exact Hs].
    apply empty_form_consistent.
Qed.

Lemma addCustomField_backed (s : ProfileSettings.State) :
  ProfileSettings.backed s ->
  ProfileSettings.backed (fst (ProfileSettings.addCustomField s)).
Proof.
  unfold ProfileSettings.backed, ProfileSettings.addCustomField. intros Hs.
  destruct (truthy (trim (ProfileSettings.newFieldLabel s))); [|exact Hs].
  destruct (ProfileSettings.find_key _ ProfileSettings.predefinedFields
            || ProfileSettings.find_key _ (ProfileSettings.customFields s));
    [exact Hs|].
  cbn [fst ProfileSettings.customFields ProfileSettings.formData].
  intros k Hk. rewrite map_app in Hk. apply keys_set_In.
  apply in_app_or in Hk as [Hk | [<- | []]]; [right; auto | now left].
Qed.

Lemma handle_backed (ev : ProfileSettings.Event) (s : ProfileSettings.State) :
  ProfileSettings.backed s ->
  ProfileSettings.backed (fst (ProfileSettings.handle ev s)).
Proof.
  unfold ProfileSettings.backed. intros Hs.
  destruct ev as [profileData | field value | value | pressed | | k
                 | stored | | cleared]; simpl.
  - intros k Hk. rewrite map_map in Hk. cbn [ProfileSettings.key] in Hk.
    rewrite map_id in Hk. now apply filter_In in Hk.
  - intros k Hk. apply keys_set_In. right. auto.
  - exact Hs.
  - destruct (eqb pressed (lit "Enter")); [|exact Hs].
    apply (addCustomField_backed s Hs).
  - apply (addCustomField_backed s Hs).
  - intros k' Hk'. rewrite keys_filter_fields, filter_other_In in Hk'.
    rewrite keys_delete, filter_other_In. split; [apply Hs|]; tauto.
  - unfold ProfileSettings.handleSave. destruct stored; exact Hs.
  - exact Hs.
  - unfold ProfileSettings.handleClear. destruct cleared; [|exact Hs].
    intros k [].
Qed.

Lemma reachable_keeps (s : ProfileSettings.State) :
  ProfileSettings.reachable s ->
  ProfileSettings.consistent s /\ ProfileSettings.backed s.
Proof.
  induction 1 as [|s ev _ (IHc & IHb) Hev].
  - split; [apply empty_form_consistent | intros k []].
  - split; [now apply handle_consistent | now apply handle_backed].
Qed.

(** X11: in every state the form can reach, the custom fields have
    distinct keys, none of which is the key of a predefined field, and the
    form data holds values for shown fields only, each under one key. *)
Theorem reachable_consistent (s : ProfileSettings.State) :
  ProfileSettings.reachable s -> ProfileSettings.consistent s.
Proof.
  intros H. exact (proj1 (reachable_keeps s H)).
Qed.

Lemma reachable_consistent_witness :
  ProfileSettings.reachable
    (fst (ProfileSettings.handle ProfileSettings.AddClick
       (fst (ProfileSettings.handle (ProfileSettings.LabelChange (lit "Passport Number"))
          ProfileSettings.initial))))
  /\ ProfileSettings.consistent
       (ProfileSettings.mkState
          [(lit "passport_number", [])]
          [ProfileSettings.mkField (lit "passport_number") (lit "Passport Number")]
          [] false).
Proof.
  assert (H : ProfileSettings.reachable
                (fst (ProfileSettings.handle ProfileSettings.AddClick
                   (fst (ProfileSettings.handle
                           (ProfileSettings.LabelChange (lit "Passport Number"))
                           ProfileSettings.initial))))).
  { apply ProfileSettings.reachable_step; [|exact I].
    apply ProfileSettings.reachable_step; [|exact I].
    apply ProfileSettings.reachable_initial. }
  split; [exact H|].
  exact (reachable_consistent _ H).
Defined.

(** X12: adding a custom field and removing it again restores the form:
    when the form is consistent, the label is not blank and its key is not
    shown yet, [removeCustomField] of that key after [addCustomField]
    leaves the form data and the custom fields exactly as they were before,
    with the label input emptied. *)
Theorem add_then_remove_restores (s : ProfileSettings.State) :
  ProfileSettings.consistent s ->
  trim (ProfileSettings.newFieldLabel s) <> [] ->
  ~ In (ProfileSettings.labelToKey (ProfileSettings.newFieldLabel s))
       (ProfileSettings.shown_keys s) ->
  snd (ProfileSettings.addCustomField s) = []
  /\ ProfileSettings.removeCustomField
       (ProfileSettings.labelToKey (ProfileSettings.newFieldLabel s))
       (fst (ProfileSettings.addCustomField s))
     = ProfileSettings.mkState (ProfileSettings.formData s)
         (ProfileSettings.customFields s) [] (ProfileSettings.saved s).
Proof.
  intros (Hnd & Hpre & Hdata & Hshown) Hlabel Hfresh.
  unfold ProfileSettings.shown_keys in *. rewrite in_app_iff in Hfresh.
  assert (Hp : ProfileSettings.find_key
                 (ProfileSettings.labelToKey (ProfileSettings.newFieldLabel s))
                 ProfileSettings.predefinedFields = false).
  { apply find_key_not_In. tauto. }
  assert (Hc : ProfileSettings.find_key
                 (ProfileSettings.labelToKey (ProfileSettings.newFieldLabel s))
                 (ProfileSettings.customFields s) = false).
  { apply find_key_not_In. tauto. }
  apply truthy_true in Hlabel.
  unfold ProfileSettings.addCustomField. rewrite Hlabel, Hp, Hc.
  cbn [orb fst snd]. split; [reflexivity|].
  unfold ProfileSettings.removeCustomField.
  cbn [ProfileSettings.formData ProfileSettings.customFields
       ProfileSettings.newFieldLabel ProfileSettings.saved].
  rewrite delete_set_fresh.
  - rewrite filter_app. cbn [filter ProfileSettings.key].
    rewrite eqb_refl. cbn [negb]. rewrite app_nil_r.
    rewrite filter_all; [reflexivity|].
    intros f Hf. apply negb_true_iff, eqb_neq. intros Heq.
    apply find_key_not_In in Hc. apply Hc. rewrite <- Heq. now apply in_map.
  - intros Hk. apply Hshown, in_app_or in Hk. tauto.
Qed.

Lemma add_then_remove_restores_witness :
  ProfileSettings.consistent
    (ProfileSettings.mkState [(lit "name", lit "Ada")] [] (lit " LinkedIn Profile ") false)
  /\ ProfileSettings.removeCustomField (lit "linkedin_profile")
       (fst (ProfileSettings.addCustomField
          (ProfileSettings.mkState [(lit "name", lit "Ada")] []
             (lit " LinkedIn Profile ") false)))
     = ProfileSettings.mkState [(lit "name", lit "Ada")] [] [] false.
Proof.
  assert (Hs : ProfileSettings.consistent
                 (ProfileSettings.mkState [(lit "name", lit "Ada")] []
                    (lit " LinkedIn Profile ") false)).
  { unfold ProfileSettings.consistent. simpl.
    split; [constructor|]. split; [intros k []|].
    split; [repeat constructor; now intros []|].
    intros k [<- | []]. now left. }
  split; [exact Hs|].
  refine (proj2 (add_then_remove_restores _ Hs _ _)).
  - vm_compute. discriminate.
  - vm_compute. intuition discriminate.
Defined.

(** X13: two labels with the same key cannot both become fields: once
    [addCustomField] has run for a label that is not blank, whether it
    added the field or found it present, running it for any label with the
    same key that is not blank alerts and changes nothing. *)
Theorem same_key_collides (s : ProfileSettings.State) (label1 label2 : jstring) :
  trim label1 <> [] ->
  trim label2 <> [] ->
  ProfileSettings.labelToKey label1 = ProfileSettings.labelToKey label2 ->
  let s1 :=
    fst (ProfileSettings.handle ProfileSettings.AddClick
           (fst (ProfileSettings.handle (ProfileSettings.LabelChange label1) s))) in
  let s2 := fst (ProfileSettings.handle (ProfileSettings.LabelChange label2) s1) in
  ProfileSettings.handle ProfileSettings.AddClick s2
  = (s2, [ProfileSettings.Alert (lit "A field with this name already exists!")]).
Proof.
  intros H1 H2 Hkey. apply truthy_true in H1, H2. cbv zeta.
  cbn [ProfileSettings.handle fst].
  assert (Hfound :
    ProfileSettings.find_key (ProfileSettings.labelToKey label2)
      ProfileSettings.predefinedFields
    || ProfileSettings.find_key (ProfileSettings.labelToKey label2)
         (ProfileSettings.customFields
            (fst (ProfileSettings.addCustomField
               (ProfileSettings.mkState (ProfileSettings.formData s)
                  (ProfileSettings.customFields s) label1 (ProfileSettings.saved s)))))
    = true).
  { unfold ProfileSettings.addCustomField.
    cbn [ProfileSettings.newFieldLabel ProfileSettings.customFields
         ProfileSettings.formData ProfileSettings.saved].
    rewrite H1, Hkey.
    destruct (ProfileSettings.find_key (ProfileSettings.labelToKey label2)
                ProfileSettings.predefinedFields) eqn:Hp; [reflexivity|].
    destruct (ProfileSettings.find_key (ProfileSettings.labelToKey label2)
                (ProfileSettings.customFields s)) eqn:Hc.
    - cbn [orb fst ProfileSettings.customFields]. exact Hc.
    - cbn [orb fst ProfileSettings.customFields].
      apply find_key_In. rewrite map_app. apply in_or_app. right. now left. }
  unfold ProfileSettings.addCustomField at 1.
  cbn [ProfileSettings.newFieldLabel ProfileSettings.customFields
       ProfileSettings.formData ProfileSettings.saved].
  rewrite H2, Hfound. reflexivity.
Qed.

Lemma same_key_collides_witness :
  trim (lit "LinkedIn Profile") <> []
  /\ ProfileSettings.labelToKey (lit "LinkedIn Profile")
     = ProfileSettings.labelToKey (lit "linkedin_profile")
  /\ snd (ProfileSettings.handle ProfileSettings.AddClick
       (fst (ProfileSettings.handle (ProfileSettings.LabelChange (lit "linkedin_profile"))
          (fst (ProfileSettings.handle ProfileSettings.AddClick
             (fst (ProfileSettings.handle
                     (ProfileSettings.LabelChange (lit "LinkedIn Profile"))
                     ProfileSettings.initial)))))))
     = [ProfileSettings.Alert (lit "A field with this name already exists!")].
Proof.
  split; [vm_compute; discriminate|]. split; [reflexivity|].
  assert (H1 : trim (lit "LinkedIn Profile") <> []) by (vm_compute; discriminate).
  assert (H2 : trim (lit "linkedin_profile") <> []) by (vm_compute; discriminate).
  rewrite (same_key_collides ProfileSettings.initial
             (lit "LinkedIn Profile") (lit "linkedin_profile") H1 H2 eq_refl).
  reflexivity.
Defined.

Lemma replace_runs_no_key (s : jstring) :
  Forall (fun c => ProfileSettings.is_key_char c = false) s ->
  ProfileSettings.replace_runs true s = []
  /\ (ProfileSettings.replace_runs false s = []
      \/ ProfileSettings.replace_runs false s = [ProfileSettings.underscore]).
Proof.
  induction 1 as [|c s Hc _ (IHt & _)]; simpl; [now split; [|left]|].
  rewrite Hc, IHt. split; [reflexivity | now right].
Qed.

Lemma labelToKey_no_key (label : jstring) :
  Forall (fun c => ProfileSettings.is_key_char c = false) (toLowerCase label) ->
  ProfileSettings.labelToKey label = [].
Proof.
  intros H. unfold ProfileSettings.labelToKey.
  destruct (replace_runs_no_key _ H) as (_ & [-> | ->]); reflexivity.
Qed.

(** X14: a label that is not blank but holds, once in lower case, no
    letter a to z and no digit has the empty key; the first such label is
    accepted, and becomes a custom field whose key is the empty string,
    with the form data holding the empty string under that key. *)
Theorem label_without_letters_gets_empty_key (s : ProfileSettings.State) :
  trim (ProfileSettings.newFieldLabel s) <> [] ->
  Forall (fun c => ProfileSettings.is_key_char c = false)
         (toLowerCase (ProfileSettings.newFieldLabel s)) ->
  ~ In [] (map ProfileSettings.key (ProfileSettings.customFields s)) ->
  ProfileSettings.labelToKey (ProfileSettings.newFieldLabel s) = []
  /\ ProfileSettings.addCustomField s
     = (ProfileSettings.mkState
          (JSObject.set [] [] (ProfileSettings.formData s))
          (ProfileSettings.customFields s
             ++ [ProfileSettings.mkField [] (trim (ProfileSettings.newFieldLabel s))])
          [] (ProfileSettings.saved s),
        []).
Proof.
  intros Hlabel Hchars Hfresh.
  pose proof (labelToKey_no_key _ Hchars) as Hkey.
  split; [exact Hkey|].
  apply truthy_true in Hlabel. apply find_key_not_In in Hfresh.
  unfold ProfileSettings.addCustomField. rewrite Hlabel, Hkey, Hfresh.
  reflexivity.
Qed.

Lemma label_without_letters_gets_empty_key_witness :
  trim (lit "???") <> []
  /\ ProfileSettings.addCustomField (ProfileSettings.mkState [] [] (lit "???") false)
     = (ProfileSettings.mkState [([], [])]
          [ProfileSettings.mkField [] (lit "???")] [] false, []).
Proof.
  assert (Hlabel : trim (ProfileSettings.newFieldLabel
                           (ProfileSettings.mkState [] [] (lit "???") false)) <> [])
    by (vm_compute; discriminate).
  split; [exact Hlabel|].
  refine (proj2 (label_without_letters_gets_empty_key
                   (ProfileSettings.mkState [] [] (lit "???") false) Hlabel _ _)).
  - repeat constructor.
  - intros [].
Defined.

(** X15: [removeCustomField] forgets the field: afterwards no custom field
    has the key and the form data has no value under it, while every other
    custom field stays, in its order, and every other key of the form data
    reads as before. *)
Theorem remove_forgets_field (k : jstring) (s : ProfileSettings.State) :
  let s' := ProfileSettings.removeCustomField k s in
  ~ In k (map ProfileSettings.key (ProfileSettings.customFields s'))
  /\ JSObject.get k (ProfileSettings.formData s') = None
  /\ ~ In k (JSObject.keys (ProfileSettings.formData s'))
  /\ ProfileSettings.customFields s'
     = filter (fun field => negb (eqb (ProfileSettings.key field) k))
         (ProfileSettings.customFields s)
  /\ (forall field, In field (ProfileSettings.customFields s') <->
        In field (ProfileSettings.customFields s) /\ ProfileSettings.key field <> k)
  /\ (forall k', k' <> k ->
        JSObject.get k' (ProfileSettings.formData s')
        = JSObject.get k' (ProfileSettings.formData s)).
Proof.
  cbv zeta. unfold ProfileSettings.removeCustomField.
  cbn [ProfileSettings.customFields ProfileSettings.formData].
  destruct (get_delete k (ProfileSettings.formData s)) as (Hnone & Hother).
  split; [|split; [exact Hnone|split; [|split; [reflexivity|split; [|exact Hother]]]]].
  - rewrite keys_filter_fields, filter_other_In. tauto.
  - rewrite keys_delete, filter_other_In. tauto.
  - intros field. rewrite filter_In, negb_true_iff, eqb_neq. reflexivity.
Qed.

(** ** The options page *)

Lemma run_offered_active (events : list Options.Event) :
  forall s,
    Forall Options.offered events ->
    In (Options.activeTab s) Options.TABS ->
    In (Options.activeTab (Options.run events s)) Options.TABS.
Proof.
  induction events as [|ev rest IH]; intros s Hev Hs; [exact Hs|].
  inversion Hev as [|? ? Hoff Hrest]; subst.
  apply IH; [exact Hrest|].
  destruct ev as [item|isDark]; [exact Hoff | exact Hs].
Qed.

(** X16: whatever navigation buttons are clicked and however the colour
    scheme changes, starting from the page as it mounts, the active tab is
    one of [TABS], so [renderTabContent] shows a panel, never [null], and
    exactly one navigation button looks active. *)
Theorem options_always_shows_a_panel (events : list Options.Event) :
  Forall Options.offered events ->
  In (Options.activeTab (Options.run events Options.initial)) Options.TABS
  /\ Options.renderTabContent (Options.run events Options.initial) <> None
  /\ length (filter (Options.looks_active (Options.run events Options.initial))
               Options.TABS) = 1%nat.
Proof.
  intros Hev.
  assert (Hin : In (Options.activeTab (Options.run events Options.initial))
                   Options.TABS).
  { apply run_offered_active; [exact Hev|]. right. now left. }
  split; [exact Hin|].
  unfold Options.renderTabContent, Options.looks_active.
  destruct (Options.activeTab (Options.run events Options.initial));
    simpl in Hin; split; try discriminate; try reflexivity;
    intuition discriminate.
Qed.

Lemma options_always_shows_a_panel_witness :
  Forall Options.offered
    [Options.TabClick Options.form_data; Options.SchemeChange true]
  /\ Options.renderTabContent
       (Options.run [Options.TabClick Options.form_data; Options.SchemeChange true]
          Options.initial)
     <> None.
Proof.
  assert (H : Forall Options.offered
                [Options.TabClick Options.form_data; Options.SchemeChange true]).
  { constructor; [|constructor; [exact I | constructor]].
    simpl. right. right. right. now left. }
  split; [exact H|].
  destruct (options_always_shows_a_panel _ H) as (_ & Hpanel & _).
  exact Hpanel.
Defined.

(** X17: loading back the form data of a reachable state, as happens when
    the saved profile comes back from the store, keeps the form data and
    the set of custom field keys, but every custom field is then labelled
    by its key: the labels typed when the fields were added are gone. *)
Theorem reload_keeps_keys_drops_labels (s : ProfileSettings.State) :
  ProfileSettings.reachable s ->
  let s' := ProfileSettings.loadProfile (ProfileSettings.formData s) s in
  ProfileSettings.formData s' = ProfileSettings.formData s
  /\ (forall k, In k (map ProfileSettings.key (ProfileSettings.customFields s'))
                <-> In k (map ProfileSettings.key (ProfileSettings.customFields s)))
  /\ (forall field, In field (ProfileSettings.customFields s') ->
                    ProfileSettings.label field = ProfileSettings.key field)
  /\ ProfileSettings.consistent s'.
Proof.
  intros Hs. destruct (reachable_keeps s Hs) as (Hc & Hb).
  cbv zeta. split; [reflexivity|]. split; [|split].
  - intros k. unfold ProfileSettings.loadProfile.
    cbn [ProfileSettings.customFields]. rewrite map_map.
    cbn [ProfileSettings.key]. rewrite map_id, filter_In, negb_true_iff,
      find_key_not_In.
    destruct Hc as (_ & Hpre & _ & Hshown). split.
    + intros (Hk & Hnp). apply Hshown, in_app_or in Hk. tauto.
    + intros Hk. split; [now apply Hb | now apply Hpre].
  - intros field Hf. unfold ProfileSettings.loadProfile in Hf.
    cbn [ProfileSettings.customFields] in Hf.
    apply in_map_iff in Hf as (k & <- & _). reflexivity.
  - apply loadProfile_consistent. now destruct Hc as (_ & _ & Hnd & _).
Qed.

Lemma reload_keeps_keys_drops_labels_witness :
  ProfileSettings.reachable
    (fst (ProfileSettings.handle ProfileSettings.AddClick
       (fst (ProfileSettings.handle (ProfileSettings.LabelChange (lit "Passport Number"))
          ProfileSettings.initial))))
  /\ ProfileSettings.customFields
       (fst (ProfileSettings.handle ProfileSettings.AddClick
          (fst (ProfileSettings.handle (ProfileSettings.LabelChange (lit "Passport Number"))
             ProfileSettings.initial))))
     = [ProfileSettings.mkField (lit "passport_number") (lit "Passport Number")]
  /\ forall field,
       In field
         (ProfileSettings.customFields
            (ProfileSettings.loadProfile [(lit "passport_number", [])]
               (ProfileSettings.mkState [(lit "passport_number", [])]
                  [ProfileSettings.mkField (lit "passport_number")
                                           (lit "Passport Number")]
                  [] false))) ->
       ProfileSettings.label field = ProfileSettings.key field.
Proof.
  assert (H : ProfileSettings.reachable
                (fst (ProfileSettings.handle ProfileSettings.AddClick
                   (fst (ProfileSettings.handle
                           (ProfileSettings.LabelChange (lit "Passport Number"))
                           ProfileSettings.initial))))).
  { apply ProfileSettings.reachable_step; [|exact I].
    apply ProfileSettings.reachable_step; [|exact I].
    apply ProfileSettings.reachable_initial. }
  split; [exact H|]. split; [reflexivity|].
  exact (proj1 (proj2 (proj2 (reload_keeps_keys_drops_labels _ H)))).
Defined.
